(** * A shallow embedding of the reactive-signal engines of proposal-signals

    Two implementations live in the repository and the claims cite both:

    - [Example]: the reference engine of [example/src/signals.ts]
      (State / Computed / Effect with clean, maybe-dirty and dirty
      colouring).  Its global context, its node store and its user
      callbacks are modelled explicitly; the engine's mutual recursion
      (get -> isSignalDirty -> updateComputedSignal -> callback -> get ...)
      is written as a fuelled interpreter in a small state-and-exception
      monad.
    - [Polyfill]: the Watcher wrapper of the signal polyfill
      ([wrapper.ts], stored as [unnamed/part_010]), with the parts of its
      [graph.js] that the wrapper calls, which are not among the sources. *)

From Stdlib Require Import List Bool ZArith String Lia.
Import ListNotations.


Module Example.

(** ** JavaScript values *)

(** Numbers are kept only as far as [Object.is] distinguishes them: [NaN],
    the two zeros and non-zero finite integers. *)
Inductive num := NaN | Zero (negative : bool) | Fin (z : Z).

Inductive val :=
| VNum (n : num)
| VStr (s : string)
| VBool (b : bool)
| VUndefined
| VUninit.  (** the module-private [UNINITIALIZED] symbol *)

Definition num_is (a b : num) : bool :=
  match a, b with
  | NaN, NaN => true
  | Zero x, Zero y => Bool.eqb x y
  | Fin x, Fin y => Z.eqb x y
  | _, _ => false
  end.

(** [Object.is] *)
Definition Object_is (a b : val) : bool :=
  match a, b with
  | VNum x, VNum y => num_is x y
  | VStr x, VStr y => String.eqb x y
  | VBool x, VBool y => Bool.eqb x y
  | VUndefined, VUndefined => true
  | VUninit, VUninit => true
  | _, _ => false
  end.

(** ** User callbacks

    A callback is a program over the engine's surface: it reads a signal
    ([s.get()]), writes a state ([s.set(v)]), runs a sub-program under
    [unsafe.untrack], returns or throws.  The continuation receives the
    value read. *)
Inductive prog :=
| PRet (v : val)
| PThrow (e : val)
| PGet (n : nat) (k : val -> prog)
| PSet (n : nat) (v : val) (k : prog)
| PUntrack (body : prog) (k : val -> prog).

(** ** Nodes *)

Inductive SignalStatus := CLEAN | MAYBE_DIRTY | DIRTY | DESTROYED.

Definition status_eqb (a b : SignalStatus) : bool :=
  match a, b with
  | CLEAN, CLEAN | MAYBE_DIRTY, MAYBE_DIRTY | DIRTY, DIRTY
  | DESTROYED, DESTROYED => true
  | _, _ => false
  end.

Inductive node_kind := KState | KComputed | KEffect.

(** One record for the three classes ([Signal] and its subclasses).
    [consumers] and [sources] are the [null | Set] fields, a [Set] being
    an insertion-ordered duplicate-free list.  [notify] records whether
    the effect's [notify] option is non-null; [Effect.children] and
    [Effect.cleanup] are left out: callbacks construct no nodes, so
    [children] stays [null], and no code of the file assigns [cleanup]. *)
Record node := mkNode {
  kind : node_kind;
  consumers : option (list nat);
  equals : val -> val -> bool;
  status : SignalStatus;
  value : val;
  callback : prog;
  sources : option (list nat);
  unowned : bool;
  notify : bool;
}.

(** [new State(v, options)] *)
Definition new_state (v : val) (eqopt : option (val -> val -> bool)) : node :=
  mkNode KState None (match eqopt with Some f => f | None => Object_is end)
    DIRTY v (PRet VUndefined) None true false.

(** [new Computed(cb, options)], given whether [current_effect] was null. *)
Definition new_computed (cb : prog) (eqopt : option (val -> val -> bool))
    (effect_is_null : bool) : node :=
  mkNode KComputed None (match eqopt with Some f => f | None => Object_is end)
    DIRTY VUninit cb None effect_is_null false.

(** [new Effect(cb, {notify})] *)
Definition new_effect (cb : prog) (has_notify : bool) : node :=
  mkNode KEffect None Object_is DIRTY VUninit cb None true has_notify.

Definition set_status (s : SignalStatus) (n : node) : node :=
  mkNode n.(kind) n.(consumers) n.(equals) s n.(value) n.(callback)
    n.(sources) n.(unowned) n.(notify).
Definition set_value (v : val) (n : node) : node :=
  mkNode n.(kind) n.(consumers) n.(equals) n.(status) v n.(callback)
    n.(sources) n.(unowned) n.(notify).
Definition set_consumers (c : option (list nat)) (n : node) : node :=
  mkNode n.(kind) c n.(equals) n.(status) n.(value) n.(callback)
    n.(sources) n.(unowned) n.(notify).
Definition set_sources (s : option (list nat)) (n : node) : node :=
  mkNode n.(kind) n.(consumers) n.(equals) n.(status) n.(value) n.(callback)
    s n.(unowned) n.(notify).

(** ** Insertion-ordered sets *)

Definition set_has (x : nat) (l : list nat) : bool := existsb (Nat.eqb x) l.
Definition set_add (x : nat) (l : list nat) : list nat :=
  if set_has x l then l else l ++ [x].
Definition set_delete (x : nat) (l : list nat) : list nat :=
  filter (fun y => negb (Nat.eqb x y)) l.

(** ** The engine's world: node store, module-level [let]s, and a trace *)

(** The trace records the two kinds of user code the engine calls:
    [Invoked n] when [signal.callback()] of node [n] is entered and
    [Notified n] when [notifyEffect] calls the notify option of effect
    [n].  Notify callbacks are external code; their only modelled effect is
    this event. *)
Inductive event := Invoked (n : nat) | Notified (n : nat).

Record world := mkWorld {
  nodes : nat -> node;
  current_consumer : option nat;
  current_effect : option nat;
  current_sources : option (list nat);
  current_untracking : bool;
  current_skip_consumer : bool;
  trace : list event;
}.

Definition upd_node (i : nat) (f : node -> node) (w : world) : world :=
  mkWorld (fun j => if Nat.eqb i j then f (w.(nodes) j) else w.(nodes) j)
    w.(current_consumer) w.(current_effect) w.(current_sources)
    w.(current_untracking) w.(current_skip_consumer) w.(trace).
Definition set_current_consumer (c : option nat) (w : world) : world :=
  mkWorld w.(nodes) c w.(current_effect) w.(current_sources)
    w.(current_untracking) w.(current_skip_consumer) w.(trace).
Definition set_current_effect (e : option nat) (w : world) : world :=
  mkWorld w.(nodes) w.(current_consumer) e w.(current_sources)
    w.(current_untracking) w.(current_skip_consumer) w.(trace).
Definition set_current_sources (s : option (list nat)) (w : world) : world :=
  mkWorld w.(nodes) w.(current_consumer) w.(current_effect) s
    w.(current_untracking) w.(current_skip_consumer) w.(trace).
Definition set_current_untracking (b : bool) (w : world) : world :=
  mkWorld w.(nodes) w.(current_consumer) w.(current_effect)
    w.(current_sources) b w.(current_skip_consumer) w.(trace).
Definition set_current_skip_consumer (b : bool) (w : world) : world :=
  mkWorld w.(nodes) w.(current_consumer) w.(current_effect)
    w.(current_sources) w.(current_untracking) b w.(trace).
Definition emit (e : event) (w : world) : world :=
  mkWorld w.(nodes) w.(current_consumer) w.(current_effect)
    w.(current_sources) w.(current_untracking) w.(current_skip_consumer)
    (w.(trace) ++ [e]).

Definition node_at (w : world) (i : nat) : node := w.(nodes) i.

(** ** A state monad with JavaScript exceptions

    [NoFuel] is not a JavaScript outcome: it marks a run whose recursion
    went deeper than the fuel given (the host's call stack). *)
Inductive outcome (A : Type) := Ok (a : A) | Throw (e : val) | NoFuel.
Arguments Ok {A} a.
Arguments Throw {A} e.
Arguments NoFuel {A}.

Definition M (A : Type) := world -> outcome A * world.

Definition ret {A} (a : A) : M A := fun w => (Ok a, w).
Definition throw {A} (e : val) : M A := fun w => (Throw e, w).
Definition bind {A B} (m : M A) (k : A -> M B) : M B :=
  fun w => match m w with
           | (Ok a, w') => k a w'
           | (Throw e, w') => (Throw e, w')
           | (NoFuel, w') => (NoFuel, w')
           end.
Definition get : M world := fun w => (Ok w, w).
Definition modify (f : world -> world) : M unit := fun w => (Ok tt, f w).
Definition out_of_fuel {A} : M A := fun w => (NoFuel, w).

(** [try { m } finally { fin }] where [fin] cannot throw. *)
Definition try_finally {A} (m : M A) (fin : world -> world) : M A :=
  fun w => let (r, w') := m w in (r, fin w').

Notation "x <- m ;; k" := (bind m (fun x => k))
  (at level 61, m at next level, right associativity).
Notation "m ;;; k" := (bind m (fun _ => k))
  (at level 61, right associativity).

Definition read (i : nat) : M node := fun w => (Ok (node_at w i), w).

(** [const x = err] *)
Definition err_write_in_computed : val :=
  VStr "Writing to state signals during the computation phase (from within computed signals) is not permitted."%string.
Definition err_read_effect_in_computed : val :=
  VStr "Reading effect signals during the computation phase (from within computed signals) is not permitted."%string.
Definition err_effect_disposed : val :=
  VStr "Cannot call get() on effect signals that have already been disposed."%string.
Definition err_not_a_function : val := VStr "TypeError: set is not a function"%string.

(** [current_consumer instanceof Computed] *)
Definition consumer_is_computed (w : world) : bool :=
  match w.(current_consumer) with
  | Some c => match (node_at w c).(kind) with KComputed => true | _ => false end
  | None => false
  end.

Definition is_effect (n : node) : bool :=
  match n.(kind) with KEffect => true | _ => false end.

(** [notifyEffect] *)
Definition notifyEffect (i : nat) : M unit :=
  n <- read i ;;
  if n.(notify) then modify (emit (Notified i)) else ret tt.

(** [markSignalConsumers(signal, toStatus, forceNotify)] *)
Fixpoint markSignalConsumers (fuel : nat) (signal : nat) (toStatus : SignalStatus)
    (forceNotify : bool) : M unit :=
  match fuel with
  | O => out_of_fuel
  | S f =>
    sig <- read signal ;;
    match sig.(consumers) with
    | None => ret tt
    | Some cs =>
      (fix loop (l : list nat) : M unit :=
         match l with
         | [] => ret tt
         | consumer :: rest =>
           c <- read consumer ;;
           w <- get ;;
           let st := c.(status) in
           let isEffect := is_effect c in
           if status_eqb st DIRTY
              || (isEffect && negb forceNotify
                  && match w.(current_effect) with
                     | Some e => Nat.eqb consumer e | None => false end)
           then loop rest
           else
             modify (upd_node consumer (set_status toStatus)) ;;;
             (if status_eqb st CLEAN then
                (if isEffect then notifyEffect consumer
                 else markSignalConsumers f consumer MAYBE_DIRTY forceNotify)
              else ret tt) ;;;
             loop rest
         end) cs
    end
  end.

(** [State.prototype.set]; calling [set] on a non-State node is the
    JavaScript [TypeError] of a missing method. *)
Definition state_set (fuel : nat) (this : nat) (v : val) : M unit :=
  n <- read this ;;
  match n.(kind) with
  | KState =>
    w <- get ;;
    if negb w.(current_untracking) && consumer_is_computed w then
      throw err_write_in_computed
    else if negb (n.(equals) n.(value) v) then
      modify (upd_node this (set_value v)) ;;;
      (match w.(current_effect) with
       | Some e =>
         en <- read e ;;
         if (match en.(consumers) with None => true | Some _ => false end)
            && status_eqb en.(status) CLEAN
         then modify (upd_node e (set_status DIRTY)) ;;; notifyEffect e
         else ret tt
       | None => ret tt
       end) ;;;
      markSignalConsumers fuel this DIRTY true
    else ret tt
  | _ => throw err_not_a_function
  end.

Definition is_computed (n : node) : bool :=
  match n.(kind) with KComputed => true | _ => false end.

(** [updateSignalSources(signal)] *)
Definition updateSignalSources (signal : nat) : M unit :=
  n <- read signal ;;
  w <- get ;;
  if status_eqb n.(status) DESTROYED then ret tt
  else
    match w.(current_consumer) with
    | Some _ =>
      if negb w.(current_untracking) then
        match w.(current_sources) with
        | None => modify (set_current_sources (Some [signal]))
        | Some l =>
          if negb (set_has signal l)
          then modify (set_current_sources (Some (l ++ [signal])))
          else ret tt
        end
      else ret tt
    | None => ret tt
    end.

(** [removeConsumer(signal, removeUnowned)]; [consumers.size - 1] is a
    JavaScript number, hence [Z]. *)
Fixpoint removeConsumer (fuel : nat) (signal : nat) (removeUnowned : bool)
    : M unit :=
  match fuel with
  | O => out_of_fuel
  | S f =>
    n <- read signal ;;
    match n.(sources) with
    | None => ret tt
    | Some srcs =>
      (fix loop (l : list nat) : M unit :=
         match l with
         | [] => ret tt
         | source :: rest =>
           s <- read source ;;
           let consumers_size :=
             match s.(consumers) with
             | None => 0%Z
             | Some cs => (Z.of_nat (List.length cs) - 1)%Z
             end in
           (match s.(consumers) with
            | None => ret tt
            | Some cs =>
              modify (upd_node source (set_consumers (Some (set_delete signal cs))))
            end) ;;;
           (if removeUnowned && Z.eqb consumers_size 0 && is_computed s
               && s.(unowned)
            then removeConsumer f source true
            else ret tt) ;;;
           loop rest
         end) srcs
    end
  end.

Definition effect_is_null (w : world) : bool :=
  match w.(current_effect) with None => true | Some _ => false end.

(** The engine's mutually recursive core.  [node_get] dispatches
    [x.get()] on the class of [x]; [run_prog] runs a user callback. *)
Fixpoint node_get (fuel : nat) (i : nat) : M val :=
  match fuel with
  | O => out_of_fuel
  | S f =>
    n <- read i ;;
    match n.(kind) with
    | KState => updateSignalSources i ;;; n' <- read i ;; ret n'.(value)
    | KComputed => computed_get f i
    | KEffect => effect_get f i
    end
  end

(** [Computed.prototype.get] *)
with computed_get (fuel : nat) (i : nat) : M val :=
  match fuel with
  | O => out_of_fuel
  | S f =>
    updateSignalSources i ;;;
    d <- isSignalDirty f i ;;
    (if d then updateComputedSignal f i false else ret tt) ;;;
    n <- read i ;;
    ret n.(value)
  end

(** [Effect.prototype.get] *)
with effect_get (fuel : nat) (i : nat) : M val :=
  match fuel with
  | O => out_of_fuel
  | S f =>
    w <- get ;;
    if consumer_is_computed w then throw err_read_effect_in_computed
    else
      n <- read i ;;
      if status_eqb n.(status) DESTROYED then throw err_effect_disposed
      else
        d <- isSignalDirty f i ;;
        (if d then
           modify (upd_node i (set_status CLEAN)) ;;; updateEffectSignal f i
         else ret tt) ;;;
        n' <- read i ;;
        ret n'.(value)
  end

(** [isSignalDirty(signal)] *)
with isSignalDirty (fuel : nat) (i : nat) : M bool :=
  match fuel with
  | O => out_of_fuel
  | S f =>
    n <- read i ;;
    match n.(status) with
    | DIRTY => ret true
    | MAYBE_DIRTY =>
      match n.(sources) with
      | None => ret false
      | Some srcs =>
        (fix loop (l : list nat) : M bool :=
           match l with
           | [] => ret false
           | source :: rest =>
             s <- read source ;;
             let sourceStatus := s.(status) in
             match s.(kind) with
             | KState =>
               if status_eqb sourceStatus DIRTY then
                 modify (upd_node source (set_status CLEAN)) ;;; ret true
               else loop rest
             | _ =>
               still_clean <-
                 (if status_eqb sourceStatus MAYBE_DIRTY then
                    d <- isSignalDirty f source ;; ret (negb d)
                  else ret false) ;;
               if still_clean then
                 modify (upd_node source (set_status CLEAN)) ;;; loop rest
               else
                 s' <- read source ;;
                 if status_eqb s'.(status) DIRTY then
                   updateComputedSignal f source true ;;;
                   n' <- read i ;;
                   if status_eqb n'.(status) DIRTY then ret true else loop rest
                 else loop rest
             end
           end) srcs
      end
    | _ => ret false
    end
  end

(** [updateComputedSignal(signal, forceNotify)] *)
with updateComputedSignal (fuel : nat) (i : nat) (forceNotify : bool)
    : M unit :=
  match fuel with
  | O => out_of_fuel
  | S f =>
    w <- get ;;
    n <- read i ;;
    modify (upd_node i (set_status
      (if w.(current_skip_consumer) || (effect_is_null w && n.(unowned))
       then DIRTY else CLEAN))) ;;;
    v <- executeSignalCallback f i ;;
    n' <- read i ;;
    if negb (n'.(equals) n'.(value) v) then
      modify (upd_node i (set_value v)) ;;;
      markSignalConsumers f i DIRTY forceNotify
    else ret tt
  end

(** [updateEffectSignal(signal)]; [destroyEffectChildren] is the identity
    here since [children] stays [null]. *)
with updateEffectSignal (fuel : nat) (i : nat) : M unit :=
  match fuel with
  | O => out_of_fuel
  | S f =>
    w <- get ;;
    let previous_effect := w.(current_effect) in
    modify (set_current_effect (Some i)) ;;;
    try_finally
      (v <- executeSignalCallback f i ;; modify (upd_node i (set_value v)))
      (set_current_effect previous_effect)
  end

(** [executeSignalCallback(signal)] *)
with executeSignalCallback (fuel : nat) (i : nat) : M val :=
  match fuel with
  | O => out_of_fuel
  | S f =>
    w <- get ;;
    n <- read i ;;
    let previous_sources := w.(current_sources) in
    let previous_consumer := w.(current_consumer) in
    let previous_skip_consumer := w.(current_skip_consumer) in
    modify (set_current_sources None) ;;;
    modify (set_current_consumer (Some i)) ;;;
    modify (set_current_skip_consumer
              (effect_is_null w && is_computed n && n.(unowned))) ;;;
    try_finally
      (modify (emit (Invoked i)) ;;;
       value <- run_prog f n.(callback) ;;
       w1 <- get ;;
       n1 <- read i ;;
       (match w1.(current_sources) with
        | Some cur =>
          removeConsumer f i false ;;;
          modify (upd_node i (set_sources (Some cur))) ;;;
          (if negb w1.(current_skip_consumer) then
             (fix add (l : list nat) : M unit :=
                match l with
                | [] => ret tt
                | source :: rest =>
                  s <- read source ;;
                  modify (upd_node source (set_consumers
                    (match s.(consumers) with
                     | None => Some [i]
                     | Some cs => Some (set_add i cs)
                     end))) ;;;
                  add rest
                end) cur
           else ret tt)
        | None =>
          match n1.(sources) with
          | Some _ =>
            removeConsumer f i false ;;;
            modify (upd_node i (set_sources (Some [])))
          | None => ret tt
          end
        end) ;;;
       ret value)
      (fun w' => set_current_skip_consumer previous_skip_consumer
                   (set_current_consumer previous_consumer
                      (set_current_sources previous_sources w')))
  end

(** A user callback. *)
with run_prog (fuel : nat) (p : prog) : M val :=
  match fuel with
  | O => out_of_fuel
  | S f =>
    match p with
    | PRet v => ret v
    | PThrow e => throw e
    | PGet n k => v <- node_get f n ;; run_prog f (k v)
    | PSet n v k => state_set f n v ;;; run_prog f k
    | PUntrack body k =>
      w <- get ;;
      let previous_untracking := w.(current_untracking) in
      modify (set_current_untracking true) ;;;
      r <- try_finally (run_prog f body)
             (set_current_untracking previous_untracking) ;;
      run_prog f (k r)
    end
  end.

(** [unsafe.untrack(fn)] at top level. *)
Definition untrack (fuel : nat) (body : prog) : M val :=
  w <- get ;;
  let previous_untracking := w.(current_untracking) in
  modify (set_current_untracking true) ;;;
  try_finally (run_prog fuel body) (set_current_untracking previous_untracking).

End Example.

Module Polyfill.

(** ** The polyfill's reactive nodes

    [wrapper.ts] reaches its nodes through [graph.js], which is not among
    the sources.  A node carries the fields the wrapper reads and writes:
    the kind of its wrapper ([isState], [isComputed], [isWatcher]), the
    [dirty] flag, and the two index-mirrored edge arrays: [producerNode] /
    [producerIndexOfThis] on the consumer side, [liveConsumerNode] /
    [liveConsumerIndexOfThis] on the producer side.  A wrapper and its node
    are one-to-one, so a node id stands for both. *)
Inductive wkind := WState | WComputed | WWatcher.

Definition wkind_eqb (a b : wkind) : bool :=
  match a, b with
  | WState, WState | WComputed, WComputed | WWatcher, WWatcher => true
  | _, _ => false
  end.

Record rnode := mkRNode {
  wrapper_kind : wkind;
  dirty : bool;
  producerNode : list (option nat);
  producerIndexOfThis : list (option nat);
  nextProducerIndex : Z;
  liveConsumerNode : list (option nat);
  liveConsumerIndexOfThis : list (option nat);
}.

Record pworld := mkPWorld {
  rnodes : nat -> rnode;
  inNotificationPhase : bool;
  unwatched_calls : list nat;  (** [node.unwatched?.call(...)] events *)
}.

Definition upd_rnode (i : nat) (f : rnode -> rnode) (pw : pworld) : pworld :=
  mkPWorld (fun j => if Nat.eqb i j then f (pw.(rnodes) j) else pw.(rnodes) j)
    pw.(inNotificationPhase) pw.(unwatched_calls).

Definition with_producers (pn : list (option nat)) (pi : list (option nat))
    (npi : Z) (n : rnode) : rnode :=
  mkRNode n.(wrapper_kind) n.(dirty) pn pi npi
    n.(liveConsumerNode) n.(liveConsumerIndexOfThis).
Definition with_live (lcn lci : list (option nat)) (n : rnode) : rnode :=
  mkRNode n.(wrapper_kind) n.(dirty) n.(producerNode)
    n.(producerIndexOfThis) n.(nextProducerIndex) lcn lci.

(** ** JavaScript arrays

    An array is a list of slots, [None] being a hole or [undefined].
    Writing past the end extends the array with holes; [arr.length--]
    drops the last slot; reading index [-1] gives [undefined]. *)
Fixpoint js_set {A} (l : list (option A)) (i : nat) (x : option A)
    : list (option A) :=
  match l, i with
  | [], O => [x]
  | [], S i' => None :: js_set [] i' x
  | _ :: t, O => x :: t
  | h :: t, S i' => h :: js_set t i' x
  end.

Definition js_get {A} (l : list (option A)) (i : Z) : option A :=
  if (i <? 0)%Z then None
  else match nth_error l (Z.to_nat i) with Some o => o | None => None end.

Definition js_length_dec {A} (l : list (option A)) : list (option A) :=
  removelast l.

(** [Array.prototype.filter] skips holes. *)
Definition js_filter_present (p : nat -> bool) (l : list (option nat))
    : list nat :=
  fold_right (fun o acc => match o with
                           | Some n => if p n then n :: acc else acc
                           | None => acc
                           end) [] l.

Definition obind {A B} (m : option A) (k : A -> option B) : option B :=
  match m with Some a => k a | None => None end.
Notation "'let*' x := m 'in' k" := (obind m (fun x => k))
  (at level 200, x name, m at level 100, k at level 200).

(** Modelled from the spec: [producerRemoveLiveConsumerAtIndex] of
    [graph.js] is not among the sources.  The spec's liveness rule (a node
    that loses its last live sink fires [unwatched] and recurses to its
    sources in reverse) is followed, and the index bookkeeping is the
    swap-with-last removal that [Watcher.unwatch] says it copies, with the
    roles of producer and consumer exchanged.  [None] is a thrown
    [TypeError] (or exhausted fuel). *)
Fixpoint producerRemoveLiveConsumerAtIndex (fuel : nat) (node : nat)
    (idx : nat) (pw : pworld) : option pworld :=
  match fuel with
  | O => None
  | S f =>
    let n := pw.(rnodes) node in
    let* pw1 :=
      (if Nat.eqb (List.length n.(liveConsumerNode)) 1 then
         let pw0 := mkPWorld pw.(rnodes) pw.(inNotificationPhase)
                      (pw.(unwatched_calls) ++ [node]) in
         fold_left
           (fun (acc : option pworld) (i : nat) =>
              let* acc := acc in
              let* p := js_get n.(producerNode) (Z.of_nat i) in
              let* k := js_get n.(producerIndexOfThis) (Z.of_nat i) in
              producerRemoveLiveConsumerAtIndex f p k acc)
           (rev (seq 0 (List.length n.(producerNode)))) (Some pw0)
       else Some pw) in
    let n1 := pw1.(rnodes) node in
    let lastIdx := (Z.of_nat (List.length n1.(liveConsumerNode)) - 1)%Z in
    let lcn := js_length_dec (js_set n1.(liveConsumerNode) idx
                                (js_get n1.(liveConsumerNode) lastIdx)) in
    let lci := js_length_dec (js_set n1.(liveConsumerIndexOfThis) idx
                                (js_get n1.(liveConsumerIndexOfThis) lastIdx)) in
    let pw2 := upd_rnode node (with_live lcn lci) pw1 in
    if Nat.ltb idx (List.length lcn) then
      let* consumer := js_get lcn (Z.of_nat idx) in
      match js_get lci (Z.of_nat idx) with
      | Some idxProducer =>
        Some (upd_rnode consumer (fun c =>
          with_producers c.(producerNode)
            (js_set c.(producerIndexOfThis) idxProducer (Some idx))
            c.(nextProducerIndex) c) pw2)
      | None => Some pw2
      end
    else Some pw2
  end.

Definition is_signal (n : rnode) : bool :=
  match n.(wrapper_kind) with WState | WComputed => true | WWatcher => false end.

(** [Watcher.prototype.unwatch(...signals)] *)
Definition unwatch (fuel : nat) (this : nat) (signals : list nat)
    (pw : pworld) : option pworld :=
  if negb (wkind_eqb (pw.(rnodes) this).(wrapper_kind) WWatcher) then None
  else if negb (forallb (fun s => is_signal (pw.(rnodes) s)) signals) then None
  else
    let len := List.length (pw.(rnodes) this).(producerNode) in
    (* first loop: detach from each producer, collect indicesToShift *)
    let* st :=
      fold_left
        (fun (acc : option (pworld * list nat)) (i : nat) =>
           let* acc := acc in
           let (pw', indicesToShift) := acc in
           let node := pw'.(rnodes) this in
           let* p := js_get node.(producerNode) (Z.of_nat i) in
           if existsb (Nat.eqb p) signals then
             let* k := js_get node.(producerIndexOfThis) (Z.of_nat i) in
             let* pw'' := producerRemoveLiveConsumerAtIndex fuel p k pw' in
             Some (pw'', indicesToShift ++ [i])
           else Some (pw', indicesToShift))
        (seq 0 len) (Some (pw, [])) in
    let (pw1, indicesToShift) := st in
    (* second loop: swap-remove each collected index *)
    fold_left
      (fun (acc : option pworld) (idx : nat) =>
         let* pw' := acc in
         let node := pw'.(rnodes) this in
         let lastIdx := (Z.of_nat (List.length node.(producerNode)) - 1)%Z in
         let pn := js_length_dec (js_set node.(producerNode) idx
                                    (js_get node.(producerNode) lastIdx)) in
         let pi := js_length_dec (js_set node.(producerIndexOfThis) idx
                                    (js_get node.(producerIndexOfThis) lastIdx)) in
         let pw'' := upd_rnode this
                       (with_producers pn pi (node.(nextProducerIndex) - 1)%Z) pw' in
         if Nat.ltb idx (List.length pn) then
           let* producer := js_get pn (Z.of_nat idx) in
           match js_get pi (Z.of_nat idx) with
           | Some idxConsumer =>
             Some (upd_rnode producer (fun p =>
               with_live p.(liveConsumerNode)
                 (js_set p.(liveConsumerIndexOfThis) idxConsumer (Some idx)) p) pw'')
           | None => Some pw''
           end
         else Some pw'')
      indicesToShift (Some pw1).

(** [Watcher.prototype.getPending()] *)
Definition getPending (this : nat) (pw : pworld) : option (list nat) :=
  if negb (wkind_eqb (pw.(rnodes) this).(wrapper_kind) WWatcher) then None
  else Some (js_filter_present (fun n => (pw.(rnodes) n).(dirty))
               (pw.(rnodes) this).(producerNode)).

(** ** [Signal.State.get] / [set] and [Signal.Computed.get]

    Everything past the notification-phase check of [signalGetFn],
    [signalSetFn] and [computedGet] is left abstract: the statements below
    hold for any behaviour of the rest of [signal.js] and [computed.js]. *)
Inductive presult := PDone | PValue (v : Example.val) | PError (msg : string).

Definition err_notify_write : string :=
  "Writes to signals not permitted during Watcher callback".
Definition err_notify_read : string :=
  "Assertion error: signal read during notification phase".

Section Operations.

Variable signal_read : nat -> pworld -> presult * pworld.
Variable signal_write : nat -> Example.val -> pworld -> presult * pworld.
Variable computed_read : nat -> pworld -> presult * pworld.

(** Modelled from the spec: [signalGetFn] of [signal.js] is not among the
    sources; per the spec a read while a watcher's notify runs fails with
    the graph untouched, otherwise the read proceeds ([signal_read]). *)
Definition signalGetFn (this : nat) (pw : pworld) : presult * pworld :=
  if pw.(inNotificationPhase) then (PError err_notify_read, pw)
  else signal_read this pw.

(** Modelled from the spec: [computedGet] of [computed.js] is not among
    the sources; it fails like [signalGetFn] during notification. *)
Definition computedGet (this : nat) (pw : pworld) : presult * pworld :=
  if pw.(inNotificationPhase) then (PError err_notify_read, pw)
  else computed_read this pw.

(** [Signal.State.prototype.get] *)
Definition State_get (this : nat) (pw : pworld) : presult * pworld :=
  if negb (wkind_eqb (pw.(rnodes) this).(wrapper_kind) WState) then
    (PError "Wrong receiver type for Signal.State.prototype.get", pw)
  else signalGetFn this pw.

(** [Signal.State.prototype.set] *)
Definition State_set (this : nat) (newValue : Example.val) (pw : pworld)
    : presult * pworld :=
  if negb (wkind_eqb (pw.(rnodes) this).(wrapper_kind) WState) then
    (PError "Wrong receiver type for Signal.State.prototype.set", pw)
  else if pw.(inNotificationPhase) then (PError err_notify_write, pw)
  else signal_write this newValue pw.

(** [Signal.Computed.prototype.get] *)
Definition Computed_get (this : nat) (pw : pworld) : presult * pworld :=
  if negb (wkind_eqb (pw.(rnodes) this).(wrapper_kind) WComputed) then
    (PError "Wrong receiver type for Signal.Computed.prototype.get", pw)
  else computedGet this pw.

End Operations.

End Polyfill.
Module Frames.
Import Example.

(** A status change a state write may make: none, or from a non-dirty
    status to dirty or checked ([MAYBE_DIRTY]). *)
Definition status_step (a b : SignalStatus) : Prop :=
  b = a \/ (a <> DIRTY /\ (b = DIRTY \/ b = MAYBE_DIRTY)).

(** The module-level [let]s are equal. *)
Definition same_context (w w' : world) : Prop :=
  current_consumer w' = current_consumer w /\
  current_effect w' = current_effect w /\
  current_sources w' = current_sources w /\
  current_untracking w' = current_untracking w /\
  current_skip_consumer w' = current_skip_consumer w.

(** [w'] differs from [w] at most in node statuses, each by a
    [status_step], and in the trace. *)
Definition marks_only (w w' : world) : Prop :=
  (forall n, node_at w' n = set_status (node_at w' n).(status) (node_at w n) /\
             status_step (node_at w n).(status) (node_at w' n).(status)) /\
  same_context w w'.

Definition status_steps (w w' : world) : Prop :=
  forall n, status_step (node_at w n).(status) (node_at w' n).(status).

End Frames.

Module Scenarios.
Import Example.

Definition dummy : node := new_state VUndefined None.

(** A top-level world (no consumer, no effect) holding the nodes [l]. *)
Definition mk (l : list node) : world :=
  mkWorld (fun j => nth j l dummy) None None None false false [].

(** [const s = new State("first"); const c = new Computed(() => { throw s.get(); })] *)
Definition w_throw : world :=
  mk [new_state (VStr "first"%string) None;
      new_computed (PGet 0 (fun x => PThrow x)) None true].

(** [s1], [s2] states; [b] reads [s1]; [a] reads [b] then [s2]; an effect
    with a notify option reads [a]. *)
Definition w_diamond : world :=
  mk [new_state (VNum (Fin 1)) None; new_state (VNum (Fin 1)) None;
      new_computed (PGet 0 PRet) None true;
      new_computed (PGet 2 (fun _ => PGet 1 PRet)) None true;
      new_effect (PGet 3 PRet) true].

Definition w_diamond_watched : world := snd (effect_get 100 4 w_diamond).
Definition w_diamond_s1 : world := snd (state_set 100 0 (VNum (Fin 2)) w_diamond_watched).
Definition w_diamond_s2 : world := snd (state_set 100 1 (VNum (Fin 2)) w_diamond_s1).

(** [c1] reads a state and always returns 1; [c2] reads [c1]. *)
Definition w_prune : world :=
  mk [new_state (VNum (Zero false)) None;
      new_computed (PGet 0 (fun _ => PRet (VNum (Fin 1)))) None true;
      new_computed (PGet 1 (fun _ => PRet (VNum (Fin 2)))) None true].

Definition w_prune_1 : world := snd (computed_get 100 2 w_prune).
Definition w_prune_2 : world := snd (computed_get 100 2 w_prune_1).
Definition w_prune_3 : world := snd (computed_get 100 2 w_prune_2).

(** A computed whose callback writes a state. *)
Definition w_write : world :=
  mk [new_state (VNum (Fin 1)) None;
      new_computed (PSet 0 (VNum (Fin 2)) (PRet VUndefined)) None true].

(** An effect reading a computed that reads itself. *)
Definition w_cycle : world :=
  mk [new_effect (PGet 1 PRet) false; new_computed (PGet 1 PRet) None true].

(** A state holding [NaN], no equality option. *)
Definition w_nan : world := mk [new_state (VNum NaN) None].

(** A state holding [+0], no equality option, read by an effect. *)
Definition w_zero : world :=
  snd (effect_get 100 1 (mk [new_state (VNum (Zero false)) None;
                              new_effect (PGet 0 PRet) true])).

(** [b = new Computed(() => s.get() > 5 ? 1 : 0)]. *)
Definition step5 (x : val) : prog :=
  PRet (match x with
        | VNum (Fin z) => if (5 <? z)%Z then VNum (Fin 1) else VNum (Fin 0)
        | _ => VNum (Fin 0)
        end).
Definition w_stale : world :=
  mk [new_state (VNum (Fin 1)) None; new_state (VNum (Fin 1)) None;
      new_computed (PGet 0 step5) None true;
      new_computed (PGet 2 PRet) None true;
      new_effect (PGet 3 (fun x => PGet 1 (fun _ => PRet x))) true].
Definition w_stale_1 : world := snd (effect_get 100 4 w_stale).
Definition w_stale_2 : world := snd (state_set 100 0 (VNum (Fin 2)) w_stale_1).
Definition w_stale_3 : world := snd (computed_get 100 3 w_stale_2).
Definition w_stale_4 : world := snd (state_set 100 1 (VNum (Fin 2)) w_stale_3).
Definition w_stale_5 : world := snd (effect_get 100 4 w_stale_4).
Definition w_stale_6 : world := snd (state_set 100 0 (VNum (Fin 10)) w_stale_5).

Definition w_pruned : world :=
  mk [new_state (VNum (Zero false)) None;
      new_computed (PGet 0 (fun _ => PRet (VNum (Fin 1)))) None false;
      new_computed (PGet 1 PRet) None false].
Definition w_pruned_read : world := snd (computed_get 100 2 w_pruned).
Definition w_pruned_set : world := snd (state_set 100 0 (VNum (Fin 5)) w_pruned_read).

End Scenarios.

Module PolyfillScenarios.
Import Polyfill.

(** The spec's [get_pending()]: the watched computeds whose status is
    dirty or checked, in order; [graph.js] keeps both statuses in the one
    [dirty] flag. *)
Definition get_pending_spec (this : nat) (pw : pworld) : list nat :=
  js_filter_present
    (fun n => wkind_eqb (pw.(rnodes) n).(wrapper_kind) WComputed
              && (pw.(rnodes) n).(dirty))
    (pw.(rnodes) this).(producerNode).

(** Every index [i] of the watcher's [producerNode] holds a producer [p]
    whose live-consumer arrays record the watcher at [producerIndexOfThis[i]]
    with index [i]. *)
Definition mirror_ok (this : nat) (pw : pworld) : bool :=
  let n := pw.(rnodes) this in
  forallb
    (fun i =>
       match nth_error n.(producerNode) i, nth_error n.(producerIndexOfThis) i with
       | Some (Some p), Some (Some k) =>
         let pn := pw.(rnodes) p in
         match nth_error pn.(liveConsumerNode) k,
               nth_error pn.(liveConsumerIndexOfThis) k with
         | Some (Some t), Some (Some i') => Nat.eqb t this && Nat.eqb i' i
         | _, _ => false
         end
       | _, _ => false
       end)
    (seq 0 (List.length n.(producerNode))).

(** No signal of [signals] lists [this] among its live consumers. *)
Definition detached (this : nat) (signals : list nat) (pw : pworld) : bool :=
  forallb
    (fun s => negb (existsb (fun o => match o with
                                      | Some t => Nat.eqb t this
                                      | None => false
                                      end)
                      (pw.(rnodes) s).(liveConsumerNode)))
    signals.

Definition unwatch_consistent (this : nat) (signals : list nat) (pw : pworld) : bool :=
  detached this signals pw && mirror_ok this pw.

Definition rdummy : rnode := mkRNode WState false [] [] 0 [] [].

Definition mkp (l : list rnode) (phase : bool) : pworld :=
  mkPWorld (fun j => nth j l rdummy) phase [].

(** A watcher [2] watching the states [0] and [1], edges mirrored. *)
Definition pw_watch2 : pworld :=
  mkp [mkRNode WState false [] [] 0 [Some 2] [Some 0];
       mkRNode WState false [] [] 0 [Some 2] [Some 1];
       mkRNode WWatcher false [Some 0; Some 1] [Some 0; Some 0] 2 [] []] false.

(** A watcher [2] watching a dirty computed [0], a state [1] and a clean
    computed [3]. *)
Definition pw_pending : pworld :=
  mkp [mkRNode WComputed true [] [] 0 [Some 2] [Some 0];
       mkRNode WState false [] [] 0 [Some 2] [Some 1];
       mkRNode WWatcher false [Some 0; Some 1; Some 3] [Some 0; Some 0; Some 0] 3 [] [];
       mkRNode WComputed false [] [] 0 [Some 2] [Some 2]] false.

(** A state [0] and a computed [1] while a watcher's notify runs. *)
Definition pw_notifying : pworld :=
  mkp [mkRNode WState false [] [] 0 [] []; mkRNode WComputed false [] [] 0 [] []] true.

End PolyfillScenarios.

Module Lifecycle.
Import Example.

Definition set_equals (f : val -> val -> bool) (n : node) : node :=
  mkNode n.(kind) n.(consumers) f n.(status) n.(value) n.(callback)
    n.(sources) n.(unowned) n.(notify).
Definition set_notify (b : bool) (n : node) : node :=
  mkNode n.(kind) n.(consumers) n.(equals) n.(status) n.(value) n.(callback)
    n.(sources) n.(unowned) b.

(** [destroySignal(signal)].  [destroyEffectChildren] leaves [children]
    [null] as it found it (callbacks construct no nodes), and [cleanup] is
    [null] (no code of the file assigns it), so neither calls anything. *)
Definition destroySignal (fuel : nat) (signal : nat) : M unit :=
  n <- read signal ;;
  modify (upd_node signal (set_status DESTROYED)) ;;;
  modify (upd_node signal (set_value VUninit)) ;;;
  modify (upd_node signal (set_equals Object_is)) ;;;
  modify (upd_node signal (set_consumers None)) ;;;
  match n.(kind) with
  | KEffect =>
    removeConsumer fuel signal true ;;;
    modify (upd_node signal (set_sources None)) ;;;
    modify (upd_node signal (set_notify false))
  | KComputed =>
    removeConsumer fuel signal true ;;;
    modify (upd_node signal (set_sources None))
  | KState => ret tt
  end.

(** [Effect.prototype.dispose] *)
Definition dispose (fuel : nat) (this : nat) : M unit := destroySignal fuel this.

(** The loop of [executeSignalCallback] that adds [signal] to the
    consumers of each collected source, as written there. *)
Definition add_consumers (i : nat) : list nat -> M unit :=
  fix add (l : list nat) : M unit :=
    match l with
    | [] => ret tt
    | source :: rest =>
      s <- read source ;;
      modify (upd_node source (set_consumers
        (match s.(consumers) with
         | None => Some [i]
         | Some cs => Some (set_add i cs)
         end))) ;;;
      add rest
    end.

(** The module-level [let]s other than [current_sources]. *)
Definition ctx (w : world) :=
  (current_consumer w, current_effect w, current_untracking w,
   current_skip_consumer w).

(** Run from [w], [m] ends with the same [ctx] (whatever its outcome), and
    leaves [current_sources] alone when untracking is on. *)
Definition keeps_at {A} (m : M A) (w : world) : Prop :=
  ctx (snd (m w)) = ctx w /\
  (current_untracking w = true -> current_sources (snd (m w)) = current_sources w).

Definition keeps {A} (m : M A) : Prop := forall w, keeps_at m w.

(** [signal.consumers] is a set holding [i]. *)
Definition has_consumer (w : world) (s i : nat) : Prop :=
  match (node_at w s).(consumers) with Some cs => In i cs | None => False end.

(** [w'] differs from [w] only in [consumers] fields, and these only lose
    members: a [null] field stays [null]. *)
Definition consumers_shrink (w w' : world) : Prop :=
  (forall j, node_at w' j = set_consumers (node_at w' j).(consumers) (node_at w j) /\
             (forall x, has_consumer w' j x -> has_consumer w j x) /\
             ((node_at w j).(consumers) = None -> (node_at w' j).(consumers) = None)) /\
  current_consumer w' = current_consumer w /\ current_effect w' = current_effect w /\
  current_sources w' = current_sources w /\
  current_untracking w' = current_untracking w /\
  current_skip_consumer w' = current_skip_consumer w /\ trace w' = trace w.

End Lifecycle.

Module PolyfillIntrospect.
Import Polyfill.

(** [Signal.subtle.introspectSources(sink)]; [None] is the thrown
    [TypeError].  A node stands for its wrapper, so [.map(n => n.wrapper)]
    keeps the array as it is. *)
Definition introspectSources (sink : nat) (pw : pworld) : option (list (option nat)) :=
  let n := pw.(rnodes) sink in
  if negb (wkind_eqb n.(wrapper_kind) WComputed) && negb (wkind_eqb n.(wrapper_kind) WWatcher)
  then None
  else Some n.(producerNode).

(** [Signal.subtle.introspectSinks(signal)] *)
Definition introspectSinks (signal : nat) (pw : pworld) : option (list (option nat)) :=
  let n := pw.(rnodes) signal in
  if negb (wkind_eqb n.(wrapper_kind) WComputed) && negb (wkind_eqb n.(wrapper_kind) WState)
  then None
  else Some n.(liveConsumerNode).

(** [Signal.subtle.hasSinks(signal)] *)
Definition hasSinks (signal : nat) (pw : pworld) : option bool :=
  let n := pw.(rnodes) signal in
  if negb (wkind_eqb n.(wrapper_kind) WComputed) && negb (wkind_eqb n.(wrapper_kind) WState)
  then None
  else Some (0 <? List.length n.(liveConsumerNode)).

(** [Signal.subtle.hasSources(signal)] *)
Definition hasSources (signal : nat) (pw : pworld) : option bool :=
  let n := pw.(rnodes) signal in
  if negb (wkind_eqb n.(wrapper_kind) WComputed) && negb (wkind_eqb n.(wrapper_kind) WWatcher)
  then None
  else Some (0 <? List.length n.(producerNode)).

End PolyfillIntrospect.

Module LifecycleScenarios.
Import Example Scenarios.

(** A state and a computed reading it, with [current_untracking] on. *)
Definition w_untracked : world :=
  set_current_untracking true
    (mk [new_state (VNum (Fin 1)) None; new_computed (PGet 0 PRet) None true]).

(** A state and an effect reading it. *)
Definition w_effect : world :=
  mk [new_state (VNum (Fin 1)) None; new_effect (PGet 0 PRet) true].


End LifecycleScenarios.

Module Recompute.
Import Example.

(** The status [updateComputedSignal] gives [signal] before it runs the
    callback: [current_skip_consumer || (current_effect === null &&
    signal.unowned) ? DIRTY : CLEAN]. *)
Definition update_status (w : world) (signal : nat) : SignalStatus :=
  if w.(current_skip_consumer) || (effect_is_null w && (node_at w signal).(unowned))
  then DIRTY else CLEAN.

(** The loop of [isSignalDirty] over [signal.sources] when [signal] is
    [MAYBE_DIRTY]; [isSignalDirty (S fuel) signal] runs [isd_loop fuel
    signal] on those sources. *)
Definition isd_loop (fuel : nat) (i : nat) : list nat -> M bool :=
  fix loop (l : list nat) : M bool :=
    match l with
    | [] => ret false
    | source :: rest =>
      s <- read source ;;
      let sourceStatus := s.(status) in
      match s.(kind) with
      | KState =>
        if status_eqb sourceStatus DIRTY then
          modify (upd_node source (set_status CLEAN)) ;;; ret true
        else loop rest
      | _ =>
        still_clean <-
          (if status_eqb sourceStatus MAYBE_DIRTY then
             d <- isSignalDirty fuel source ;; ret (negb d)
           else ret false) ;;
        if still_clean then
          modify (upd_node source (set_status CLEAN)) ;;; loop rest
        else
          s' <- read source ;;
          if status_eqb s'.(status) DIRTY then
            updateComputedSignal fuel source true ;;;
            n' <- read i ;;
            if status_eqb n'.(status) DIRTY then ret true else loop rest
          else loop rest
      end
    end.

(** A source that the loop of [isSignalDirty] passes over without calling
    anything or changing anything: a State that is not [DIRTY], or another
    node that is neither [DIRTY] nor [MAYBE_DIRTY]. *)
Definition quiet_source (w : world) (source : nat) : Prop :=
  match (node_at w source).(kind) with
  | KState => (node_at w source).(status) <> DIRTY
  | _ => (node_at w source).(status) <> DIRTY /\ (node_at w source).(status) <> MAYBE_DIRTY
  end.

(** The world in which [executeSignalCallback] runs the callback of
    [signal]: [currentSources = null], [currentConsumer = signal],
    [currentSkipConsumer = currentEffect === null && signal instanceof
    Computed && signal.unowned], and the call recorded. *)
Definition callback_world (w : world) (signal : nat) : world :=
  emit (Invoked signal)
    (set_current_skip_consumer
       (effect_is_null w && is_computed (node_at w signal) && (node_at w signal).(unowned))
       (set_current_consumer (Some signal) (set_current_sources None w))).

(** [m] only appends to the trace of calls. *)
Definition grows {A} (m : M A) : Prop :=
  forall w, exists t, trace (snd (m w)) = trace w ++ t.

End Recompute.

Module TraceFacts.
Import Example Recompute.

Lemma grows_ret {A} (a : A) : grows (ret a).
Proof. intro w. exists []. rewrite app_nil_r. reflexivity. Qed.
Lemma grows_throw {A} e : grows (@throw A e).
Proof. intro w. exists []. rewrite app_nil_r. reflexivity. Qed.
Lemma grows_out_of_fuel {A} : grows (@out_of_fuel A).
Proof. intro w. exists []. rewrite app_nil_r. reflexivity. Qed.
Lemma grows_read i : grows (read i).
Proof. intro w. exists []. rewrite app_nil_r. reflexivity. Qed.
Lemma grows_get : grows get.
Proof. intro w. exists []. rewrite app_nil_r. reflexivity. Qed.
Lemma grows_modify f : (forall w, trace (f w) = trace w) -> grows (modify f).
Proof. intros H w. exists []. rewrite app_nil_r. apply H. Qed.
Lemma grows_emit e : grows (modify (emit e)).
Proof. intro w. exists [e]. reflexivity. Qed.

Lemma grows_bind {A B} (m : M A) (k : A -> M B) :
  grows m -> (forall a, grows (k a)) -> grows (bind m k).
Proof.
  intros Hm Hk w. unfold bind. destruct (Hm w) as [t1 E1].
  destruct (m w) as [[a| |] w1]; simpl in *; try (exists t1; exact E1).
  destruct (Hk a w1) as [t2 E2]. exists (t1 ++ t2). rewrite E2, E1, app_assoc. reflexivity.
Qed.

Lemma grows_try_finally {A} (m : M A) fin :
  grows m -> (forall w, trace (fin w) = trace w) -> grows (try_finally m fin).
Proof.
  intros Hm Hf w. unfold try_finally. destruct (Hm w) as [t E].
  destruct (m w) as [r w1]. simpl in *. exists t. rewrite Hf. exact E.
Qed.

Ltac gstep :=
  match goal with
  | |- grows (bind _ _) => apply grows_bind; [|intro; cbv beta zeta]
  | |- grows (ret _) => apply grows_ret
  | |- grows (throw _) => apply grows_throw
  | |- grows out_of_fuel => apply grows_out_of_fuel
  | |- grows (read _) => apply grows_read
  | |- grows get => apply grows_get
  | |- grows (modify (emit _)) => apply grows_emit
  | |- grows (modify _) => apply grows_modify; intro; reflexivity
  | |- grows (try_finally _ _) => apply grows_try_finally; [|intro; reflexivity]
  | |- grows (notifyEffect _) => unfold notifyEffect
  | |- grows (updateSignalSources _) => unfold updateSignalSources
  | |- grows (if ?b then _ else _) => destruct b
  | |- grows (match ?x with _ => _ end) => destruct x
  | |- grows (?F ?xs) =>
      is_var xs; match type of xs with list _ => idtac end;
      induction xs; cbv beta iota zeta
  | |- grows _ => solve [ match goal with H : forall _, _ |- _ => apply H end ]
  end.

Ltac gtac := cbv beta zeta; repeat (first [assumption | gstep]).

Lemma grows_mark fuel sig to force : grows (markSignalConsumers fuel sig to force).
Proof.
  revert sig to. induction fuel as [|f IH]; intros sig to; [apply grows_out_of_fuel|].
  cbn [markSignalConsumers]. gtac.
Qed.

Lemma grows_remove fuel sig b : grows (removeConsumer fuel sig b).
Proof.
  revert sig b. induction fuel as [|f IH]; intros sig b; [apply grows_out_of_fuel|].
  cbn [removeConsumer]. gtac.
Qed.

Lemma grows_state_set fuel i v : grows (state_set fuel i v).
Proof. pose proof grows_mark. unfold state_set. gtac. Qed.

Lemma engine_grows fuel :
  (forall i, grows (node_get fuel i)) /\ (forall i, grows (computed_get fuel i)) /\
  (forall i, grows (effect_get fuel i)) /\ (forall i, grows (isSignalDirty fuel i)) /\
  (forall i b, grows (updateComputedSignal fuel i b)) /\
  (forall i, grows (updateEffectSignal fuel i)) /\
  (forall i, grows (executeSignalCallback fuel i)) /\ (forall p, grows (run_prog fuel p)).
Proof.
  pose proof grows_remove as GR. pose proof grows_mark as GM.
  pose proof grows_state_set as GS.
  induction fuel as [|f IH].
  { repeat split; intros; apply grows_out_of_fuel. }
  destruct IH as (H1 & H2 & H3 & H4 & H5 & H6 & H7 & H8).
  split; [intro i; cbn [node_get]; gtac|].
  split; [intro i; cbn [computed_get]; gtac|].
  split; [intro i; cbn [effect_get]; gtac|].
  split; [intro i; cbn [isSignalDirty]; gtac|].
  split; [intros i b; cbn [updateComputedSignal]; gtac|].
  split; [intro i; cbn [updateEffectSignal]; gtac|].
  split; [intro i; cbn [executeSignalCallback]; gtac|].
  intro p; cbn [run_prog]. destruct p; gtac.
Qed.

End TraceFacts.

Module ExampleFacts.
Import Example Frames Scenarios Recompute TraceFacts.

Lemma set_status_status s n : (set_status s n).(status) = s.
Proof. reflexivity. Qed.

Lemma set_status_twice s t n : set_status s (set_status t n) = set_status s n.
Proof. reflexivity. Qed.

Lemma set_status_same n : set_status n.(status) n = n.
Proof. destruct n; reflexivity. Qed.

Lemma node_at_upd w i f j :
  node_at (upd_node i f w) j = if Nat.eqb i j then f (node_at w j) else node_at w j.
Proof. reflexivity. Qed.

Lemma marks_only_refl w : marks_only w w.
Proof.
  split; [intro n; split; [symmetry; apply set_status_same | left; reflexivity]|].
  repeat split.
Qed.

Lemma marks_only_trans w1 w2 w3 :
  marks_only w1 w2 -> marks_only w2 w3 -> marks_only w1 w3.
Proof.
  intros [N12 C12] [N23 C23]. split.
  - intro n. destruct (N12 n) as [E12 S12]. destruct (N23 n) as [E23 S23].
    split.
    + rewrite E23, E12. reflexivity.
    + unfold status_step in *.
      destruct S12 as [S12|[S12a S12b]]; destruct S23 as [S23|[S23a S23b]];
        [left; congruence
        | right; split; [congruence | exact S23b]
        | right; split; [exact S12a | rewrite S23; exact S12b]
        | right; split; [exact S12a | exact S23b]].
  - destruct C12 as (A1 & A2 & A3 & A4 & A5), C23 as (B1 & B2 & B3 & B4 & B5).
    repeat split; congruence.
Qed.

Lemma marks_only_emit w e : marks_only w (emit e w).
Proof. apply (marks_only_refl w). Qed.

Lemma marks_only_upd_status w i to :
  (node_at w i).(status) <> DIRTY -> (to = DIRTY \/ to = MAYBE_DIRTY) ->
  marks_only w (upd_node i (set_status to) w).
Proof.
  intros Hd Ht. split; [|repeat split].
  intro n. rewrite node_at_upd. destruct (Nat.eqb i n) eqn:E.
  - apply Nat.eqb_eq in E. subst n. split; [reflexivity|]. right. auto.
  - split; [symmetry; apply set_status_same | left; reflexivity].
Qed.

Lemma status_eqb_spec a b : status_eqb a b = true <-> a = b.
Proof. destruct a, b; simpl; split; congruence. Qed.

Ltac monad := unfold notifyEffect, bind, read, get, modify, ret, out_of_fuel, throw in *.

Lemma notifyEffect_marks_only i w : marks_only w (snd (notifyEffect i w)).
Proof.
  monad. destruct (notify (node_at w i)); [apply marks_only_emit | apply marks_only_refl].
Qed.

Lemma mark_marks_only fuel sig to force w :
  (to = DIRTY \/ to = MAYBE_DIRTY) ->
  marks_only w (snd (markSignalConsumers fuel sig to force w)).
Proof.
  revert sig to w. induction fuel as [|f IH]; intros sig to w Hto.
  - apply marks_only_refl.
  - cbn [markSignalConsumers]. monad.
    destruct (consumers (node_at w sig)) as [cs|]; [|apply marks_only_refl].
    revert w. induction cs as [|c rest IHl]; intro w; [apply marks_only_refl|].
    cbn beta iota.
    destruct (status_eqb (status (node_at w c)) DIRTY || _) eqn:Skip.
    + apply IHl.
    + assert (Hnd : (node_at w c).(status) <> DIRTY).
      { intro E. apply status_eqb_spec in E. rewrite E in Skip. discriminate. }
      pose proof (marks_only_upd_status w c to Hnd Hto) as M1.
      set (w1 := upd_node c (set_status to) w) in *.
      destruct (status_eqb (status (node_at w c)) CLEAN).
      * destruct (is_effect (node_at w c)).
        -- destruct (notify (node_at w1 c)).
           ++ eapply marks_only_trans; [exact M1|].
              eapply marks_only_trans; [apply marks_only_emit|]. apply IHl.
           ++ eapply marks_only_trans; [exact M1|]. apply IHl.
        -- pose proof (IH c MAYBE_DIRTY w1 (or_intror eq_refl)) as M2.
           destruct (markSignalConsumers f c MAYBE_DIRTY force w1) as [[[]| |] w2];
             simpl in M2; eapply marks_only_trans; try exact M1;
             try (eapply marks_only_trans; [exact M2| apply IHl]); exact M2.
      * eapply marks_only_trans; [exact M1|]. apply IHl.
Qed.
Lemma marks_only_dirty w w' n :
  marks_only w w' -> (node_at w n).(status) = DIRTY -> (node_at w' n).(status) = DIRTY.
Proof.
  intros [N _] Hd. destruct (N n) as [_ [S|[S _]]]; congruence.
Qed.

Lemma mark_spec fuel sig to force w cs :
  consumers (node_at w sig) = Some cs -> (to = DIRTY \/ to = MAYBE_DIRTY) ->
  marks_only w (snd (markSignalConsumers (S fuel) sig to force w)) /\
  (fst (markSignalConsumers (S fuel) sig to force w) = Ok tt -> force = true ->
   to = DIRTY -> forall c, In c cs ->
   (node_at (snd (markSignalConsumers (S fuel) sig to force w)) c).(status) = DIRTY).
Proof.
  intros Hc Hto. cbn [markSignalConsumers]. monad. rewrite Hc. clear Hc.
  revert w. induction cs as [|c rest IHl]; intro w.
  - split; [apply marks_only_refl | intros _ _ _ c []].
  - cbn beta iota.
    destruct (status_eqb (status (node_at w c)) DIRTY || _) eqn:Skip.
    + destruct (IHl w) as [Mr Dr]. split; [exact Mr|].
      intros Hok Hf Ht c' [<-|Hin]; [|exact (Dr Hok Hf Ht c' Hin)].
      subst force. simpl in Skip. rewrite andb_false_r, orb_false_r in Skip.
      apply status_eqb_spec in Skip. exact (marks_only_dirty _ _ _ Mr Skip).
    + apply orb_false_iff in Skip. destruct Skip as [Hnd _].
      assert (Hnd' : (node_at w c).(status) <> DIRTY).
      { intro E. rewrite E in Hnd. discriminate. }
      pose proof (marks_only_upd_status w c to Hnd' Hto) as M1.
      set (w1 := upd_node c (set_status to) w) in *.
      assert (Hc1 : (node_at w1 c).(status) = to).
      { unfold w1. rewrite node_at_upd, Nat.eqb_refl. reflexivity. }
      match goal with
      | IH : forall w, marks_only w (snd (?L rest w)) /\ _ |- _ => set (LOOP := L) in *
      end.
      assert (Fin : forall w2, marks_only w1 w2 ->
        marks_only w (snd (LOOP rest w2)) /\
        (fst (LOOP rest w2) = Ok tt -> force = true -> to = DIRTY ->
         forall c0, In c0 (c :: rest) -> (node_at (snd (LOOP rest w2)) c0).(status) = DIRTY)).
      { intros w2 M12. destruct (IHl w2) as [Mr Dr]. split.
        - eapply marks_only_trans; [exact M1|].
          eapply marks_only_trans; [exact M12|exact Mr].
        - intros Hok Hf Ht c0 [<-|Hin]; [|exact (Dr Hok Hf Ht c0 Hin)].
          apply (marks_only_dirty _ _ _ Mr). apply (marks_only_dirty _ _ _ M12).
          rewrite Hc1. exact Ht. }
      assert (Stop : forall w2 (o : outcome unit), o <> Ok tt -> marks_only w1 w2 ->
        marks_only w w2 /\
        (o = Ok tt -> force = true -> to = DIRTY ->
         forall c0, In c0 (c :: rest) -> (node_at w2 c0).(status) = DIRTY)).
      { intros w2 o Ho M12. split; [eapply marks_only_trans; eassumption|].
        intro E. contradiction. }
      destruct (status_eqb (status (node_at w c)) CLEAN).
      * destruct (is_effect (node_at w c)).
        -- cbn beta. destruct (notify (node_at w1 c)).
           ++ apply Fin. apply marks_only_emit.
           ++ apply Fin. apply marks_only_refl.
        -- pose proof (mark_marks_only fuel c MAYBE_DIRTY force w1 (or_intror eq_refl)) as M2.
           destruct (markSignalConsumers fuel c MAYBE_DIRTY force w1) as [o w2].
           simpl in M2. destruct o as [[]| |].
           ++ apply Fin. exact M2.
           ++ apply (Stop w2 (Throw e)); [discriminate | exact M2].
           ++ apply (Stop w2 NoFuel); [discriminate | exact M2].
      * apply Fin. apply marks_only_refl.
Qed.
Lemma status_step_refl a : status_step a a.
Proof. left. reflexivity. Qed.

Lemma status_step_trans a b c : status_step a b -> status_step b c -> status_step a c.
Proof.
  unfold status_step. intros [->|[Ha Hb]] [->|[Hb' Hc]]; auto.
Qed.

Lemma status_steps_trans w1 w2 w3 :
  status_steps w1 w2 -> status_steps w2 w3 -> status_steps w1 w3.
Proof. intros A B n. eapply status_step_trans; [apply A|apply B]. Qed.

Lemma marks_only_steps w w' : marks_only w w' -> status_steps w w'.
Proof. intros [N _] n. apply (N n). Qed.

Lemma set_tail fuel s w w3 v :
  status_steps w w3 ->
  (node_at w3 s).(consumers) = (node_at w s).(consumers) ->
  (node_at w3 s).(value) = v ->
  fst (markSignalConsumers (S fuel) s DIRTY true w3) = Ok tt ->
  (forall cs c, (node_at w s).(consumers) = Some cs -> In c cs ->
     (node_at (snd (markSignalConsumers (S fuel) s DIRTY true w3)) c).(status) = DIRTY) /\
  status_steps w (snd (markSignalConsumers (S fuel) s DIRTY true w3)) /\
  (node_at (snd (markSignalConsumers (S fuel) s DIRTY true w3)) s).(value) = v.
Proof.
  intros St Hc Hv Hok.
  pose proof (mark_marks_only (S fuel) s DIRTY true w3 (or_introl eq_refl)) as M.
  split; [|split].
  - intros cs c Hcs Hin. rewrite <- Hc in Hcs.
    destruct (mark_spec fuel s DIRTY true w3 cs Hcs (or_introl eq_refl)) as [_ D].
    exact (D Hok eq_refl eq_refl c Hin).
  - eapply status_steps_trans; [exact St|]. apply marks_only_steps. exact M.
  - destruct M as [N _]. destruct (N s) as [E _]. rewrite E. exact Hv.
Qed.

Lemma state_set_propagates fuel s v w :
  (node_at w s).(kind) = KState ->
  (node_at w s).(equals) (node_at w s).(value) v = false ->
  fst (state_set (S fuel) s v w) = Ok tt ->
  (forall cs c, (node_at w s).(consumers) = Some cs -> In c cs ->
     (node_at (snd (state_set (S fuel) s v w)) c).(status) = DIRTY) /\
  status_steps w (snd (state_set (S fuel) s v w)) /\
  (node_at (snd (state_set (S fuel) s v w)) s).(value) = v.
Proof.
  intros Hk Heq Hok. unfold state_set in *. monad. rewrite Hk in *.
  destruct (negb (current_untracking w) && consumer_is_computed w) eqn:G.
  { discriminate Hok. }
  rewrite Heq in *. cbn [negb] in *.
  set (w1 := upd_node s (set_value v) w) in *.
  assert (S1 : status_steps w w1).
  { intro n. unfold w1. rewrite node_at_upd. destruct (Nat.eqb s n); apply status_step_refl. }
  assert (C1 : (node_at w1 s).(consumers) = (node_at w s).(consumers)).
  { unfold w1. rewrite node_at_upd, Nat.eqb_refl. reflexivity. }
  assert (V1 : (node_at w1 s).(value) = v).
  { unfold w1. rewrite node_at_upd, Nat.eqb_refl. reflexivity. }
  destruct (current_effect w) as [e|] eqn:Ee; cbn beta iota in *.
  - destruct (match consumers (node_at w1 e) with Some _ => false | None => true end
              && status_eqb (status (node_at w1 e)) CLEAN) eqn:B; cbn beta iota in *.
    + apply andb_true_iff in B. destruct B as [_ B]. apply status_eqb_spec in B.
      set (w2 := upd_node e (set_status DIRTY) w1) in *.
      assert (S2 : status_steps w w2).
      { eapply status_steps_trans; [exact S1|]. apply marks_only_steps.
        apply marks_only_upd_status; [rewrite B; discriminate | left; reflexivity]. }
      assert (C2 : (node_at w2 s).(consumers) = (node_at w s).(consumers)).
      { unfold w2. rewrite node_at_upd. destruct (Nat.eqb e s); exact C1. }
      assert (V2 : (node_at w2 s).(value) = v).
      { unfold w2. rewrite node_at_upd. destruct (Nat.eqb e s); exact V1. }
      destruct (notify (node_at w2 e)); cbn beta iota in *.
      * apply set_tail; assumption.
      * apply set_tail; assumption.
    + apply set_tail; assumption.
  - apply set_tail; assumption.
Qed.

(** ** Symbolic execution of the monad *)

Lemma bind_read {A} i (k : node -> M A) w : bind (read i) k w = k (node_at w i) w.
Proof. reflexivity. Qed.

Lemma bind_get {A} (k : world -> M A) w : bind get k w = k w w.
Proof. reflexivity. Qed.

Ltac step := cbv beta iota zeta delta [status_eqb negb andb orb effect_is_null
    is_computed is_effect consumer_is_computed node_at upd_node set_current_consumer
    set_current_effect set_current_sources set_current_untracking
    set_current_skip_consumer emit set_status set_value set_sources set_consumers
    kind consumers equals status value callback sources unowned notify nodes
    current_consumer current_effect current_sources current_untracking
    current_skip_consumer trace bind ret get read modify throw try_finally
    out_of_fuel updateSignalSources notifyEffect fst snd].

Ltac run t := repeat progress (cbn [computed_get isSignalDirty run_prog node_get
    updateComputedSignal executeSignalCallback removeConsumer markSignalConsumers
    state_set]; step; try rewrite Nat.eqb_refl; try t).

Lemma state_set_no_change fuel s v w :
  (node_at w s).(kind) = KState ->
  (node_at w s).(equals) (node_at w s).(value) v = true ->
  negb (current_untracking w) && consumer_is_computed w = false ->
  state_set fuel s v w = (Ok tt, w).
Proof.
  intros Hk Heq G. unfold state_set. rewrite bind_read. cbv beta. rewrite Hk.
  rewrite bind_get. cbv beta. rewrite G, Heq. reflexivity.
Qed.

Lemma state_set_guard fuel s v w :
  (node_at w s).(kind) = KState ->
  negb (current_untracking w) && consumer_is_computed w = true ->
  state_set fuel s v w = (Throw err_write_in_computed, w).
Proof.
  intros Hk G. unfold state_set. rewrite bind_read. cbv beta. rewrite Hk.
  rewrite bind_get. cbv beta. rewrite G. reflexivity.
Qed.

Lemma updateComputed_prunes f c force w v w1 :
  executeSignalCallback f c
    (upd_node c (set_status
       (if current_skip_consumer w || (effect_is_null w && unowned (node_at w c))
        then DIRTY else CLEAN)) w) = (Ok v, w1) ->
  equals (node_at w1 c) (value (node_at w1 c)) v = true ->
  updateComputedSignal (S f) c force w = (Ok tt, w1).
Proof.
  intros Hx Heq. cbn [updateComputedSignal]. rewrite bind_get. cbv beta.
  rewrite bind_read. cbv beta. unfold bind at 1, modify. cbv beta iota.
  unfold bind at 1. rewrite Hx. rewrite bind_read. cbv beta. rewrite Heq. reflexivity.
Qed.

Lemma uss_ok i w : exists srcs, updateSignalSources i w = (Ok tt, set_current_sources srcs w).
Proof.
  unfold updateSignalSources. rewrite bind_read. cbv beta. rewrite bind_get. cbv beta.
  destruct (status_eqb _ DESTROYED);
    [|destruct (current_consumer w); [destruct (negb (current_untracking w));
      [destruct (current_sources w) as [l|]; [destruct (negb (set_has i l))|]|]|]];
    unfold ret, modify;
    first [ exists (current_sources w); destruct w; reflexivity | eexists; reflexivity ].
Qed.

Lemma bind_ok {A B} (m : M A) (k : A -> M B) w a w' :
  m w = (Ok a, w') -> bind m k w = k a w'.
Proof. intro H. unfold bind. rewrite H. reflexivity. Qed.

Ltac enter_get i :=
  cbn [computed_get];
  let x := fresh "srcs" in let U := fresh "U" in
  match goal with |- context [bind (updateSignalSources i) _ ?w] =>
    destruct (uss_ok i w) as [x U]; rewrite !(bind_ok _ _ _ _ _ U); cbv beta
  end.

Lemma clean_get f c w :
  (node_at w c).(status) = CLEAN ->
  fst (computed_get (S (S f)) c w) = Ok (node_at w c).(value) /\
  (forall j, node_at (snd (computed_get (S (S f)) c w)) j = node_at w j) /\
  trace (snd (computed_get (S (S f)) c w)) = trace w.
Proof.
  intros Hc. destruct w as [nd cc ce cs cu csk tr]. unfold node_at in *. simpl in *.
  destruct (nd c) as [k0 c0 e0 s0 v0 cb0 sr0 u0 n0] eqn:En; simpl in Hc; subst s0.
  enter_get c. run ltac:(rewrite En). repeat split.
Qed.

(** ** Reads of dirty and clean computeds *)

Lemma uss_nodes i w : node_at (snd (updateSignalSources i w)) = node_at w.
Proof. destruct (uss_ok i w) as [srcs U]. rewrite U. reflexivity. Qed.

Lemma uss_update_status i c w : update_status (snd (updateSignalSources i w)) c = update_status w c.
Proof. destruct (uss_ok i w) as [srcs U]. rewrite U. destruct w. reflexivity. Qed.

Lemma uss_trace i w : trace (snd (updateSignalSources i w)) = trace w.
Proof. destruct (uss_ok i w) as [srcs U]. rewrite U. destruct w. reflexivity. Qed.

Lemma isSignalDirty_dirty f c w :
  (node_at w c).(status) = DIRTY -> isSignalDirty (S f) c w = (Ok true, w).
Proof. intros Hs. cbn [isSignalDirty]. rewrite bind_read. cbv beta. rewrite Hs. reflexivity. Qed.

(** A read of a dirty computed is an [updateComputedSignal] followed by a read of its value. *)
Lemma dirty_get_ucs f c w :
  (node_at w c).(status) = DIRTY ->
  computed_get (S (S f)) c w =
  bind (updateComputedSignal (S f) c false) (fun _ => n <- read c ;; ret n.(value))
    (snd (updateSignalSources c w)).
Proof.
  intros Hs. destruct (uss_ok c w) as [srcs U]. cbn [computed_get].
  rewrite (bind_ok _ _ _ _ _ U). rewrite U. cbn [snd].
  assert (Hs' : (node_at (set_current_sources srcs w) c).(status) = DIRTY) by exact Hs.
  rewrite (bind_ok _ _ _ _ _ (isSignalDirty_dirty f c _ Hs')). reflexivity.
Qed.

Lemma ucs_unfold f c force w :
  updateComputedSignal (S f) c force w =
  bind (executeSignalCallback f c)
    (fun v => n' <- read c ;;
       if negb (n'.(equals) n'.(value) v) then
         modify (upd_node c (set_value v)) ;;; markSignalConsumers f c DIRTY force
       else ret tt)
    (upd_node c (set_status (update_status w c)) w).
Proof. reflexivity. Qed.

Lemma ucs_throw f c force w e w1 :
  executeSignalCallback f c (upd_node c (set_status (update_status w c)) w) = (Throw e, w1) ->
  updateComputedSignal (S f) c force w = (Throw e, w1).
Proof. intros Hx. rewrite ucs_unfold. unfold bind at 1. rewrite Hx. reflexivity. Qed.

Lemma bind_modify {A} f (k : unit -> M A) w : bind (modify f) k w = k tt (f w).
Proof. reflexivity. Qed.

Lemma bind_grows {A B} (m : M A) (k : A -> M B) w :
  (forall a, grows (k a)) -> exists t, trace (snd (bind m k w)) = trace (snd (m w)) ++ t.
Proof.
  intros Hk. unfold bind. destruct (m w) as [[a| |] w1]; cbn [snd];
    try (exists []; rewrite app_nil_r; reflexivity).
  apply Hk.
Qed.

Lemma exec_emits f c w :
  exists t, trace (snd (executeSignalCallback (S f) c w)) = trace w ++ Invoked c :: t.
Proof.
  destruct (engine_grows f) as (_ & _ & _ & _ & _ & _ & _ & HP).
  pose proof grows_remove as GR.
  cbn [executeSignalCallback]. rewrite bind_get, bind_read. cbv beta zeta.
  rewrite !bind_modify. unfold try_finally.
  match goal with |- context [bind ?E ?K ?w0] =>
    assert (GB : forall a, grows (K a)) by (intro; gtac);
    destruct (bind_grows E K w0 GB) as [t E1];
    destruct (bind E K w0) as [r w'] end.
  exists t. cbn [snd] in E1 |- *. destruct w'. cbn in E1 |- *. rewrite E1.
  destruct w. cbn. rewrite <- app_assoc. reflexivity.
Qed.

Lemma dirty_get_invokes f c w :
  (node_at w c).(status) = DIRTY ->
  exists t, trace (snd (computed_get (S (S (S (S f)))) c w)) = trace w ++ Invoked c :: t.
Proof.
  intros Hs. rewrite (dirty_get_ucs (S (S f)) c w Hs).
  destruct (bind_grows (updateComputedSignal (S (S (S f))) c false)
              (fun _ => n <- read c ;; ret n.(value)) (snd (updateSignalSources c w)))
    as [t2 E2]; [intro; gtac|].
  rewrite E2, ucs_unfold.
  match goal with |- context [bind (executeSignalCallback ?F c) ?K ?w0] =>
    assert (GK : forall a, grows (K a)) by (intro; pose proof grows_mark; gtac);
    destruct (bind_grows (executeSignalCallback F c) K w0 GK) as [t1 E1];
    rewrite E1; destruct (exec_emits (S f) c w0) as [t0 E0]; rewrite E0 end.
  exists (t0 ++ t1 ++ t2).
  change (trace (upd_node ?i ?g ?v)) with (trace v). rewrite uss_trace.
  rewrite <- !app_assoc. reflexivity.
Qed.

Lemma self_read_exhausts_gen c k n : forall fuel w,
  fuel <= n ->
  (node_at w c).(kind) = KComputed -> (node_at w c).(status) = DIRTY ->
  (node_at w c).(callback) = PGet c k -> (node_at w c).(unowned) = true ->
  current_effect w = None ->
  fst (computed_get fuel c w) = NoFuel.
Proof.
  induction n as [|n IH]; intros fuel w Hle Hk Hs Hcb Hu He.
  - destruct fuel; [reflexivity | lia].
  - destruct fuel as [|fuel]; [reflexivity|].
    destruct w as [nd cc ce cs cu csk tr]. unfold node_at in *. simpl in *. subst ce.
    destruct (nd c) as [k0 c0 e0 s0 v0 cb0 sr0 u0 n0] eqn:En; simpl in *; subst.
    enter_get c.
    destruct fuel as [|[|[|[|e]]]]; run ltac:(rewrite En); try reflexivity.
    match goal with |- context [computed_get e c ?W] =>
      assert (IHW : fst (computed_get e c W) = NoFuel);
      [ eapply IH; [lia | unfold node_at; cbn; rewrite ?Nat.eqb_refl, ?En; destruct csk; reflexivity ..]
      | destruct (computed_get e c W) as [o w'];  simpl in IHW; subst o ]
    end.
    run ltac:(rewrite En). reflexivity.
Qed.

Lemma status_eqb_neq a b : a <> b -> status_eqb a b = false.
Proof. destruct a, b; simpl; congruence. Qed.

Lemma ucs_keeps_dirty f c force w v w1 :
  executeSignalCallback f c (upd_node c (set_status (update_status w c)) w) = (Ok v, w1) ->
  (node_at w1 c).(status) = DIRTY ->
  (node_at (snd (updateComputedSignal (S f) c force w)) c).(status) = DIRTY.
Proof.
  intros Hx Hd. rewrite ucs_unfold. unfold bind at 1. rewrite Hx. rewrite bind_read.
  destruct (negb _); [|exact Hd].
  rewrite bind_modify.
  apply (marks_only_dirty (upd_node c (set_value v) w1)).
  - apply mark_marks_only. left; reflexivity.
  - unfold node_at, upd_node. simpl. rewrite Nat.eqb_refl. exact Hd.
Qed.

Lemma update_status_top_level w c :
  current_effect w = None -> (node_at w c).(unowned) = true -> update_status w c = DIRTY.
Proof.
  intros He Hu. unfold update_status, effect_is_null. rewrite He, Hu.
  destruct (current_skip_consumer w); reflexivity.
Qed.

Lemma isd_maybe f d w srcs :
  (node_at w d).(status) = MAYBE_DIRTY -> (node_at w d).(sources) = Some srcs ->
  isSignalDirty (S f) d w = isd_loop f d srcs w.
Proof. intros Hs Hsrc. cbn [isSignalDirty]. rewrite bind_read. cbv beta. rewrite Hs, Hsrc. reflexivity. Qed.

Lemma isd_loop_quiet f d w p rest :
  quiet_source w p -> isd_loop f d (p :: rest) w = isd_loop f d rest w.
Proof.
  unfold quiet_source. intros Q. unfold isd_loop at 1. rewrite bind_read. cbv beta zeta.
  destruct (kind (node_at w p)).
  - rewrite (status_eqb_neq _ _ Q). reflexivity.
  - destruct Q as [Q1 Q2]. rewrite (status_eqb_neq _ _ Q2). unfold bind at 1, ret.
    rewrite bind_read. rewrite (status_eqb_neq _ _ Q1). reflexivity.
  - destruct Q as [Q1 Q2]. rewrite (status_eqb_neq _ _ Q2). unfold bind at 1, ret.
    rewrite bind_read. rewrite (status_eqb_neq _ _ Q1). reflexivity.
Qed.

Lemma isd_loop_app f d w pre l :
  Forall (quiet_source w) pre -> isd_loop f d (pre ++ l) w = isd_loop f d l w.
Proof.
  induction 1 as [|p pre Q _ IH]; [reflexivity|].
  cbn [app]. rewrite isd_loop_quiet by exact Q. exact IH.
Qed.

Lemma isd_loop_quiet_all f d w l :
  Forall (quiet_source w) l -> isd_loop f d l w = (Ok false, w).
Proof.
  intros Q. rewrite <- (app_nil_r l), (isd_loop_app f d w l [] Q). reflexivity.
Qed.

Lemma isd_loop_prune f d c post w v w1 :
  (node_at w c).(kind) = KComputed -> (node_at w c).(status) = DIRTY ->
  executeSignalCallback f c (upd_node c (set_status (update_status w c)) w) = (Ok v, w1) ->
  equals (node_at w1 c) (value (node_at w1 c)) v = true ->
  (node_at w1 d).(status) <> DIRTY ->
  isd_loop (S f) d (c :: post) w = isd_loop (S f) d post w1.
Proof.
  intros Hk Hs Hx Heq Hd. unfold isd_loop at 1. rewrite bind_read. cbv beta zeta.
  rewrite Hk, Hs. cbn [status_eqb]. unfold bind at 1, ret. cbv beta iota.
  rewrite bind_read, Hs. cbn [status_eqb].
  unfold update_status in Hx.
  rewrite (bind_ok _ _ _ _ _ (updateComputed_prunes f c true w v w1 Hx Heq)).
  rewrite bind_read. rewrite (status_eqb_neq _ _ Hd). reflexivity.
Qed.


(** A read of a computed whose recomputation is pruned *)
Lemma pruned_sink_get f d c pre post w v w1 :
  (node_at w d).(status) = MAYBE_DIRTY -> (node_at w d).(sources) = Some (pre ++ c :: post) ->
  Forall (quiet_source w) pre ->
  (node_at w c).(kind) = KComputed -> (node_at w c).(status) = DIRTY ->
  executeSignalCallback f c
    (upd_node c (set_status (update_status w c)) (snd (updateSignalSources d w))) = (Ok v, w1) ->
  equals (node_at w1 c) (value (node_at w1 c)) v = true ->
  (node_at w1 d).(status) <> DIRTY -> Forall (quiet_source w1) post ->
  computed_get (S (S (S f))) d w = (Ok (node_at w1 d).(value), w1).
Proof.
  intros Hd Hsrc Hpre Hk Hs Hx Heq Hd1 Hpost.
  destruct (uss_ok d w) as [srcs U]. cbn [computed_get].
  rewrite (bind_ok _ _ _ _ _ U). rewrite U in Hx. cbn [snd] in Hx.
  assert (Hx' : executeSignalCallback f c
     (upd_node c (set_status (update_status (set_current_sources srcs w) c))
        (set_current_sources srcs w)) = (Ok v, w1)) by exact Hx.
  assert (E : isSignalDirty (S (S f)) d (set_current_sources srcs w) = (Ok false, w1)).
  { rewrite (isd_maybe (S f) d (set_current_sources srcs w) _ Hd Hsrc).
    rewrite (isd_loop_app _ _ (set_current_sources srcs w) pre _ Hpre).
    rewrite (isd_loop_prune f d c post (set_current_sources srcs w) v w1 Hk Hs Hx' Heq Hd1).
    apply isd_loop_quiet_all. exact Hpost. }
  rewrite (bind_ok _ _ _ _ _ E). reflexivity.
Qed.

Lemma clean_get_eq f c w :
  (node_at w c).(status) = CLEAN ->
  computed_get (S (S f)) c w = (Ok (node_at w c).(value), snd (updateSignalSources c w)).
Proof.
  intros Hc. destruct (uss_ok c w) as [srcs U]. cbn [computed_get].
  rewrite (bind_ok _ _ _ _ _ U). rewrite U. cbn [snd].
  assert (E : isSignalDirty (S f) c (set_current_sources srcs w) =
              (Ok false, set_current_sources srcs w)).
  { cbn [isSignalDirty]. rewrite bind_read.
    change (node_at (set_current_sources srcs w) c) with (node_at w c). rewrite Hc. reflexivity. }
  rewrite (bind_ok _ _ _ _ _ E). reflexivity.
Qed.

Lemma self_get_clean f c k w :
  (node_at w c).(kind) = KComputed -> (node_at w c).(status) = CLEAN ->
  run_prog (S (S (S (S f)))) (PGet c k) w =
  run_prog (S (S (S f))) (k (node_at w c).(value)) (snd (updateSignalSources c w)).
Proof.
  intros Hk Hc.
  change (run_prog (S (S (S (S f)))) (PGet c k) w)
    with (bind (node_get (S (S (S f))) c) (fun v => run_prog (S (S (S f))) (k v)) w).
  assert (E : node_get (S (S (S f))) c w = computed_get (S (S f)) c w).
  { cbn [node_get]. rewrite bind_read. rewrite Hk. reflexivity. }
  unfold bind at 1. rewrite E, (clean_get_eq f c w Hc). reflexivity.
Qed.

Lemma effect_callback_sees_clean c w :
  current_effect w <> None -> current_skip_consumer w = false ->
  (node_at (callback_world (upd_node c (set_status (update_status w c)) w) c) c).(status) = CLEAN.
Proof.
  intros He Hs. unfold callback_world, update_status, effect_is_null.
  destruct (current_effect w) as [x|]; [|congruence]. rewrite Hs.
  unfold node_at, upd_node, emit, set_current_skip_consumer, set_current_consumer,
    set_current_sources. simpl. rewrite Nat.eqb_refl. reflexivity.
Qed.

(** ** The claims *)

(** C1: an exception thrown by a computed's callback is not cached.  When
    [c] is [DIRTY] and its callback, run by [updateComputedSignal] after it
    set [c]'s status to [update_status], throws [e] and leaves the world
    [w1], [c.get()] throws [e] and ends in [w1]: no value is stored and no
    sink is marked.  [update_status] is [DIRTY] for an unowned [c] read
    outside any effect, and every [get()] of a [DIRTY] computed records a
    call of its callback; so unless the callback changes [c]'s status, the
    next [get()] calls it again and throws afresh. *)
Theorem computed_error_rethrown_by_rerun f c w e w1 :
  (node_at w c).(status) = DIRTY ->
  executeSignalCallback f c
    (upd_node c (set_status (update_status w c)) (snd (updateSignalSources c w))) = (Throw e, w1) ->
  computed_get (S (S f)) c w = (Throw e, w1) /\
  (current_effect w = None -> (node_at w c).(unowned) = true -> update_status w c = DIRTY) /\
  (forall w', (node_at w' c).(status) = DIRTY ->
     exists t, trace (snd (computed_get (S (S (S (S f)))) c w')) = trace w' ++ Invoked c :: t).
Proof.
  intros Hs Hx. split; [|split].
  - rewrite (dirty_get_ucs f c w Hs). rewrite <- (uss_update_status c c w) in Hx.
    unfold bind at 1. rewrite (ucs_throw f c false _ e w1 Hx). reflexivity.
  - apply update_status_top_level.
  - intros w'. apply dirty_get_invokes.
Qed.

(** C1 counterexample: [c = new Computed(() => { throw s.get(); })] read
    twice throws ["first"] twice and calls its callback twice. *)
Lemma c1_callback_rerun_on_each_get :
  fst (computed_get 100 1 w_throw) = Throw (VStr "first"%string) /\
  fst (computed_get 100 1 (snd (computed_get 100 1 w_throw))) = Throw (VStr "first"%string) /\
  trace (snd (computed_get 100 1 (snd (computed_get 100 1 w_throw)))) = [Invoked 1; Invoked 1].
Proof. vm_compute. repeat split. Qed.

Lemma computed_error_rethrown_by_rerun_witness :
  computed_get 9 1 w_throw =
    (Throw (VStr "first"%string),
     snd (executeSignalCallback 7 1
       (upd_node 1 (set_status (update_status w_throw 1)) (snd (updateSignalSources 1 w_throw))))).
Proof.
  apply (proj1 (computed_error_rethrown_by_rerun 7 1 w_throw (VStr "first"%string) _
                  ltac:(vm_compute; reflexivity)
                  ltac:(etransitivity; [apply surjective_pairing|]; f_equal;
                        vm_compute; reflexivity))).
Defined.

(** C2 (a clean sink behind a checked one is not reached): states [s]
    and [t]; [b = new Computed(() => s.get() > 5 ? 1 : 0)];
    [c = new Computed(() => b.get())]; an effect [E] with a notify option
    whose callback reads [c], then [t], and returns [c]'s value.  After
    [E.get(); s.set(2); c.get(); t.set(2); E.get()] the sinks form the chain
    [s -> b -> c -> E], [b] and [E] are [CLEAN] and [c] is [MAYBE_DIRTY]
    (the top-level [c.get()] left it checked).  [s.set(10)] returns
    normally and makes [b] [DIRTY], but the propagation stops at the checked
    [c]: [E], a transitive sink of [s], stays [CLEAN] and is not notified.
    [E.get()] then returns the stale 0 without calling its callback, while
    [c.get()] now gives 1. *)
Theorem clean_effect_behind_checked_missed :
  (node_at w_stale_5 0).(consumers) = Some [2] /\
  (node_at w_stale_5 2).(consumers) = Some [3] /\
  (node_at w_stale_5 3).(consumers) = Some [4] /\
  (node_at w_stale_5 2).(status) = CLEAN /\
  (node_at w_stale_5 3).(status) = MAYBE_DIRTY /\
  (node_at w_stale_5 4).(status) = CLEAN /\
  (node_at w_stale_5 0).(equals) (node_at w_stale_5 0).(value) (VNum (Fin 10)) = false /\
  fst (state_set 100 0 (VNum (Fin 10)) w_stale_5) = Ok tt /\
  (node_at w_stale_6 2).(status) = DIRTY /\
  (node_at w_stale_6 3).(status) = MAYBE_DIRTY /\
  (node_at w_stale_6 4).(status) = CLEAN /\
  trace w_stale_6 = trace w_stale_5 /\
  fst (effect_get 100 4 w_stale_6) = Ok (VNum (Fin 0)) /\
  trace (snd (effect_get 100 4 w_stale_6)) = trace w_stale_6 /\
  fst (computed_get 100 3 (snd (effect_get 100 4 w_stale_6))) = Ok (VNum (Fin 1)).
Proof. vm_compute. repeat split. Qed.

(** C3: the pruning of [updateComputedSignal] and where it stops.  (i)
    When the callback of [c] returns a value that [c]'s [equals] calls
    equal to the cached one, the recomputation ends in the world the
    callback left: the value is kept and no sink of [c] is marked.  (ii) A
    checked ([MAYBE_DIRTY]) sink [d] of a [DIRTY] computed [c], whose other
    sources before [c] are quiet, is not recomputed on its next read when
    [c]'s recomputation gives an equal value, leaves [d] not [DIRTY] and
    the sources after [c] quiet: [d.get()] calls no callback but [c]'s and
    returns the value [d] holds.  (iii) [updateComputedSignal] sets an
    unowned [c] read outside any effect to [DIRTY] before its callback,
    (iv) a computed left [DIRTY] by its callback stays [DIRTY] after the
    recomputation, and (v) every [get()] of a [DIRTY] computed calls its
    callback: so such a computed is recomputed on every read, whether or not
    its sources changed. *)
Theorem recompute_prunes_only_marking f :
  (forall c force w v w1,
     executeSignalCallback f c (upd_node c (set_status (update_status w c)) w) = (Ok v, w1) ->
     equals (node_at w1 c) (value (node_at w1 c)) v = true ->
     updateComputedSignal (S f) c force w = (Ok tt, w1)) /\
  (forall d c pre post w v w1,
     (node_at w d).(status) = MAYBE_DIRTY -> (node_at w d).(sources) = Some (pre ++ c :: post) ->
     Forall (quiet_source w) pre ->
     (node_at w c).(kind) = KComputed -> (node_at w c).(status) = DIRTY ->
     executeSignalCallback f c
       (upd_node c (set_status (update_status w c)) (snd (updateSignalSources d w))) = (Ok v, w1) ->
     equals (node_at w1 c) (value (node_at w1 c)) v = true ->
     (node_at w1 d).(status) <> DIRTY -> Forall (quiet_source w1) post ->
     computed_get (S (S (S f))) d w = (Ok (node_at w1 d).(value), w1)) /\
  (forall c w, current_effect w = None -> (node_at w c).(unowned) = true ->
     update_status w c = DIRTY) /\
  (forall c force w v w1,
     executeSignalCallback f c (upd_node c (set_status (update_status w c)) w) = (Ok v, w1) ->
     (node_at w1 c).(status) = DIRTY ->
     (node_at (snd (updateComputedSignal (S f) c force w)) c).(status) = DIRTY) /\
  (forall c w, (node_at w c).(status) = DIRTY ->
     exists t, trace (snd (computed_get (S (S (S (S f)))) c w)) = trace w ++ Invoked c :: t).
Proof.
  split; [intros c force w v w1 Hx; apply updateComputed_prunes; exact Hx|].
  split; [intros d c pre post w v w1; apply pruned_sink_get|].
  split; [intros c w; apply update_status_top_level|].
  split; [exact (ucs_keeps_dirty f)|].
  intros c w. apply dirty_get_invokes.
Qed.

(** C3 counterexample: [c1] reads a state and always returns 1, [c2] reads
    [c1].  Each of three reads of [c2] recomputes [c1] to the same value 1,
    and each calls [c2]'s callback again. *)
Lemma c3_sink_rerun_after_equal_recompute :
  (node_at w_prune_1 1).(value) = VNum (Fin 1) /\
  (node_at w_prune_2 1).(value) = VNum (Fin 1) /\
  trace w_prune_3 = [Invoked 2; Invoked 1; Invoked 2; Invoked 1; Invoked 2; Invoked 1].
Proof. vm_compute. repeat split. Qed.

Lemma recompute_prunes_only_marking_witness :
  (node_at w_pruned_set 2).(status) = MAYBE_DIRTY /\
  computed_get 100 2 w_pruned_set =
    (Ok (node_at (snd (executeSignalCallback 97 1
           (upd_node 1 (set_status (update_status w_pruned_set 1))
              (snd (updateSignalSources 2 w_pruned_set))))) 2).(value),
     snd (executeSignalCallback 97 1
           (upd_node 1 (set_status (update_status w_pruned_set 1))
              (snd (updateSignalSources 2 w_pruned_set))))).
Proof.
  split; [vm_compute; reflexivity|].
  apply (proj1 (proj2 (recompute_prunes_only_marking 97)) 2 1 [] [] w_pruned_set (VNum (Fin 1)));
    match goal with
    | |- Forall _ _ => constructor
    | |- _ <> _ => vm_compute; discriminate
    | |- executeSignalCallback _ _ _ = _ =>
        etransitivity; [apply surjective_pairing|]; f_equal; vm_compute; reflexivity
    | |- _ => vm_compute; reflexivity
    end.
Defined.

(** C5: [State.set] called while a computed's callback runs (outside
    [untrack]) throws the write-in-computed error and changes nothing. *)
Theorem set_in_computed_throws fuel s v w :
  (node_at w s).(kind) = KState ->
  current_untracking w = false -> consumer_is_computed w = true ->
  state_set fuel s v w = (Throw err_write_in_computed, w).
Proof.
  intros Hk Hu Hc. apply state_set_guard; [exact Hk|]. rewrite Hu, Hc. reflexivity.
Qed.

(** C5 counterexample: [new Computed(() => { s.set(2); })] read at top
    level throws, and [s] keeps 1. *)
Lemma c5_write_in_computed_rejected :
  fst (computed_get 100 1 w_write) = Throw err_write_in_computed /\
  (node_at (snd (computed_get 100 1 w_write)) 0).(value) = VNum (Fin 1).
Proof. vm_compute. split; reflexivity. Qed.

Lemma set_in_computed_throws_witness :
  state_set 10 0 (VNum (Fin 2)) (set_current_consumer (Some 1) w_write) =
    (Throw err_write_in_computed, set_current_consumer (Some 1) w_write).
Proof.
  apply set_in_computed_throws; reflexivity.
Defined.

(** C7: there is no cycle detection.  (a) The [get] of a [CLEAN] computed
    returns its cached value without calling its callback and leaves every
    node as it was.  (b) Inside an effect, the callback of [c] run by
    [updateComputedSignal] sees [c] [CLEAN], and (c) a callback that starts
    with [c.get()] on a [CLEAN] [c] goes on with [c]'s cached value: no
    error.  (d) Outside any effect, a [DIRTY] unowned computed whose callback
    starts with [c.get()] never finishes: for every fuel the run exhausts
    it, raising no error. *)
Theorem no_cycle_detection c :
  (forall f w, (node_at w c).(status) = CLEAN ->
     fst (computed_get (S (S f)) c w) = Ok (node_at w c).(value) /\
     (forall j, node_at (snd (computed_get (S (S f)) c w)) j = node_at w j) /\
     trace (snd (computed_get (S (S f)) c w)) = trace w) /\
  (forall w, current_effect w <> None -> current_skip_consumer w = false ->
     (node_at (callback_world (upd_node c (set_status (update_status w c)) w) c) c).(status)
       = CLEAN) /\
  (forall f k w, (node_at w c).(kind) = KComputed -> (node_at w c).(status) = CLEAN ->
     run_prog (S (S (S (S f)))) (PGet c k) w =
     run_prog (S (S (S f))) (k (node_at w c).(value)) (snd (updateSignalSources c w))) /\
  (forall k fuel w,
     (node_at w c).(kind) = KComputed -> (node_at w c).(status) = DIRTY ->
     (node_at w c).(callback) = PGet c k -> (node_at w c).(unowned) = true ->
     current_effect w = None ->
     fst (computed_get fuel c w) = NoFuel).
Proof.
  split; [intros f w; apply clean_get|].
  split; [intros w; apply effect_callback_sees_clean|].
  split; [intros f k w; apply self_get_clean|].
  intros k fuel w. apply (self_read_exhausts_gen c k fuel fuel w). lia.
Qed.

(** C7 counterexample: an effect reads [c = new Computed(() => c.get())]:
    the effect's run returns normally, [c]'s callback ran once and its
    inner [c.get()] returned the cached [UNINITIALIZED]; read at top level,
    [c.get()] recurses past any depth. *)
Lemma c7_self_read_raises_nothing :
  fst (effect_get 100 0 w_cycle) = Ok VUninit /\
  trace (snd (effect_get 100 0 w_cycle)) = [Invoked 0; Invoked 1] /\
  (node_at (snd (effect_get 100 0 w_cycle)) 1).(status) = CLEAN /\
  fst (computed_get 1000 1 w_cycle) = NoFuel.
Proof. vm_compute. repeat split. Qed.

Lemma no_cycle_detection_witness :
  fst (computed_get 7 1 w_cycle) = NoFuel /\
  (node_at (callback_world (upd_node 1 (set_status (update_status
     (set_current_effect (Some 0) w_cycle) 1)) (set_current_effect (Some 0) w_cycle)) 1) 1).(status)
     = CLEAN /\
  run_prog 6 (PGet 1 PRet) (snd (effect_get 100 0 w_cycle)) =
  run_prog 5 (PRet (node_at (snd (effect_get 100 0 w_cycle)) 1).(value))
    (snd (updateSignalSources 1 (snd (effect_get 100 0 w_cycle)))).
Proof.
  split; [|split].
  - exact (proj2 (proj2 (proj2 (no_cycle_detection 1))) PRet 7 w_cycle
             eq_refl eq_refl eq_refl eq_refl eq_refl).
  - exact (proj1 (proj2 (no_cycle_detection 1)) (set_current_effect (Some 0) w_cycle)
             ltac:(discriminate) eq_refl).
  - exact (proj1 (proj2 (proj2 (no_cycle_detection 1))) 2 PRet (snd (effect_get 100 0 w_cycle))
             ltac:(vm_compute; reflexivity) ltac:(vm_compute; reflexivity)).
Defined.

(** C8: a write of a value that [equals] calls equal to the current one
    changes nothing (no value, status, edge or trace change), and returns
    normally unless it is made from a computed's callback outside
    [untrack], where it throws. *)
Theorem equal_write_no_effect fuel s v w :
  (node_at w s).(kind) = KState ->
  (node_at w s).(equals) (node_at w s).(value) v = true ->
  snd (state_set fuel s v w) = w /\
  (negb (current_untracking w) && consumer_is_computed w = false ->
   fst (state_set fuel s v w) = Ok tt).
Proof.
  intros Hk Heq.
  destruct (negb (current_untracking w) && consumer_is_computed w) eqn:G.
  - rewrite (state_set_guard fuel s v w Hk G). split; [reflexivity | discriminate].
  - rewrite (state_set_no_change fuel s v w Hk Heq G). split; reflexivity.
Qed.

Lemma equal_write_no_effect_witness :
  snd (state_set 10 0 (VNum (Fin 1)) w_write) = w_write /\
  fst (state_set 10 0 (VNum (Fin 1)) w_write) = Ok tt.
Proof.
  destruct (equal_write_no_effect 10 0 (VNum (Fin 1)) w_write eq_refl eq_refl) as [A B].
  split; [exact A | exact (B eq_refl)].
Defined.

(** C10: a state made without an [equals] option compares with
    [Object.is]: writing [NaN] over [NaN] changes nothing, while writing
    [-0] over [+0] is a change that, when the write returns normally,
    stores [-0] and leaves every direct sink [DIRTY]. *)
Theorem default_equals_is_Object_is fuel s w v0 :
  (new_state v0 None).(equals) = Object_is /\
  ((node_at w s).(kind) = KState -> (node_at w s).(equals) = Object_is ->
   (node_at w s).(value) = VNum NaN ->
   snd (state_set fuel s (VNum NaN) w) = w) /\
  ((node_at w s).(kind) = KState -> (node_at w s).(equals) = Object_is ->
   (node_at w s).(value) = VNum (Zero false) ->
   fst (state_set (S fuel) s (VNum (Zero true)) w) = Ok tt ->
   (node_at (snd (state_set (S fuel) s (VNum (Zero true)) w)) s).(value) = VNum (Zero true) /\
   (forall cs c, (node_at w s).(consumers) = Some cs -> In c cs ->
      (node_at (snd (state_set (S fuel) s (VNum (Zero true)) w)) c).(status) = DIRTY)).
Proof.
  split; [reflexivity|]. split.
  - intros Hk He Hv.
    destruct (negb (current_untracking w) && consumer_is_computed w) eqn:G.
    + rewrite (state_set_guard fuel s (VNum NaN) w Hk G). reflexivity.
    + rewrite (state_set_no_change fuel s (VNum NaN) w Hk); [reflexivity| |exact G].
      rewrite He, Hv. reflexivity.
  - intros Hk He Hv Hok.
    assert (Hne : (node_at w s).(equals) (node_at w s).(value) (VNum (Zero true)) = false)
      by (rewrite He, Hv; reflexivity).
    destruct (state_set_propagates fuel s (VNum (Zero true)) w Hk Hne Hok) as [D [_ V]].
    split; [exact V | exact D].
Qed.

Lemma default_equals_is_Object_is_witness :
  snd (state_set 10 0 (VNum NaN) w_nan) = w_nan /\
  (node_at (snd (state_set 10 0 (VNum (Zero true)) w_zero)) 1).(status) = DIRTY.
Proof.
  destruct (default_equals_is_Object_is 9 0 w_zero VUndefined) as [_ [_ Z]].
  destruct (default_equals_is_Object_is 10 0 w_nan VUndefined) as [_ [N _]].
  split.
  - exact (N eq_refl eq_refl eq_refl).
  - exact (proj2 (Z ltac:(vm_compute; reflexivity) ltac:(vm_compute; reflexivity)
                   ltac:(vm_compute; reflexivity) ltac:(vm_compute; reflexivity))
             [1] 1 ltac:(vm_compute; reflexivity) (or_introl eq_refl)).
Defined.

End ExampleFacts.

Module PolyfillFacts.
Import Polyfill PolyfillScenarios.

(** C4: while a watcher's notify runs ([inNotificationPhase]),
    [State.prototype.get], [State.prototype.set] and
    [Computed.prototype.get] each fail with an error and leave the graph
    as it was, whatever the rest of [signal.js] and [computed.js] does. *)
Theorem notification_phase_blocks_ops signal_read signal_write computed_read this v pw :
  inNotificationPhase pw = true ->
  (exists msg, State_get signal_read this pw = (PError msg, pw)) /\
  (exists msg, State_set signal_write this v pw = (PError msg, pw)) /\
  (exists msg, Computed_get computed_read this pw = (PError msg, pw)).
Proof.
  intro H. unfold State_get, State_set, Computed_get, signalGetFn, computedGet.
  rewrite H. repeat split; destruct (negb _); eexists; reflexivity.
Qed.

Lemma notification_phase_blocks_ops_witness :
  State_set (fun _ _ pw => (PDone, pw)) 0 Example.VUndefined pw_notifying =
    (PError err_notify_write, pw_notifying).
Proof.
  destruct (notification_phase_blocks_ops (fun _ pw => (PDone, pw)) (fun _ _ pw => (PDone, pw))
              (fun _ pw => (PDone, pw)) 0 Example.VUndefined pw_notifying eq_refl)
    as [_ [[msg E] _]].
  rewrite E. unfold State_set in E. vm_compute in E. inversion E. reflexivity.
Defined.

(** C6: for a watcher whose watched nodes are signals, and whose watched
    states do not carry the [dirty] flag, [getPending()] returns the
    watched computeds whose [dirty] flag is set, in the order they are
    watched: the spec's [get_pending]. *)
Theorem getPending_dirty_computeds this pw :
  (pw.(rnodes) this).(wrapper_kind) = WWatcher ->
  (forall n, In (Some n) (pw.(rnodes) this).(producerNode) ->
     is_signal (pw.(rnodes) n) = true) ->
  (forall n, In (Some n) (pw.(rnodes) this).(producerNode) ->
     (pw.(rnodes) n).(wrapper_kind) = WState -> (pw.(rnodes) n).(dirty) = false) ->
  getPending this pw = Some (get_pending_spec this pw).
Proof.
  intros Hw Hsig Hst. unfold getPending, get_pending_spec. rewrite Hw. simpl. f_equal.
  induction (producerNode (rnodes pw this)) as [|[n|] rest IH]; [reflexivity| |].
  - simpl. rewrite IH.
    + pose proof (Hsig n (or_introl eq_refl)) as Hs.
      unfold is_signal in Hs. destruct (wrapper_kind (rnodes pw n)) eqn:K; simpl.
      * rewrite (Hst n (or_introl eq_refl) K). reflexivity.
      * reflexivity.
      * discriminate.
    + intros m Hm. apply Hsig. right. exact Hm.
    + intros m Hm. apply Hst. right. exact Hm.
  - simpl. apply IH.
    + intros m Hm. apply Hsig. right. exact Hm.
    + intros m Hm. apply Hst. right. exact Hm.
Qed.

Lemma getPending_dirty_computeds_witness :
  getPending 2 pw_pending = Some [0].
Proof.
  rewrite (getPending_dirty_computeds 2 pw_pending eq_refl).
  - reflexivity.
  - simpl. intros n [E|[E|[E|[]]]]; injection E as <-; reflexivity.
  - simpl. intros n [E|[E|[E|[]]]]; injection E as <-; simpl; try discriminate; reflexivity.
Defined.

(** C9: [unwatch(a, b)] on a watcher watching exactly [a] and [b], with
    all edges mirrored, leaves [b] in the watcher's [producerNode] while
    [b] no longer lists the watcher among its live consumers. *)
Theorem unwatch_two_signals_breaks_mirror :
  mirror_ok 2 pw_watch2 = true /\
  option_map (fun pw' => (unwatch_consistent 2 [0; 1] pw',
                          (pw'.(rnodes) 2).(producerNode),
                          (pw'.(rnodes) 1).(liveConsumerNode)))
    (unwatch 10 2 [0; 1] pw_watch2) = Some (false, [Some 1], []).
Proof. vm_compute. split; reflexivity. Qed.

End PolyfillFacts.

Module LifecycleFacts.
Import Example Lifecycle.

Ltac monad := unfold notifyEffect, bind, read, get, modify, ret, out_of_fuel, throw in *.

Lemma keeps_ret {A} (a : A) : keeps (ret a).
Proof. intro w. split; reflexivity. Qed.
Lemma keeps_throw {A} e : keeps (@throw A e).
Proof. intro w. split; reflexivity. Qed.
Lemma keeps_out_of_fuel {A} : keeps (@out_of_fuel A).
Proof. intro w. split; reflexivity. Qed.
Lemma keeps_read i : keeps (read i).
Proof. intro w. split; reflexivity. Qed.
Lemma keeps_get : keeps get.
Proof. intro w. split; reflexivity. Qed.
Lemma keeps_upd i f : keeps (modify (upd_node i f)).
Proof. intro w. split; reflexivity. Qed.
Lemma keeps_emit e : keeps (modify (emit e)).
Proof. intro w. split; reflexivity. Qed.

Lemma keeps_at_trans w1 w2 w3 :
  ctx w2 = ctx w1 -> (current_untracking w1 = true -> current_sources w2 = current_sources w1) ->
  ctx w3 = ctx w2 -> (current_untracking w2 = true -> current_sources w3 = current_sources w2) ->
  ctx w3 = ctx w1 /\ (current_untracking w1 = true -> current_sources w3 = current_sources w1).
Proof.
  unfold ctx. intros C12 S12 C23 S23. split; [congruence|].
  intro U. injection C12 as _ _ U2 _. rewrite S23, S12; congruence.
Qed.

Lemma keeps_bind {A B} (m : M A) (k : A -> M B) :
  keeps m -> (forall a, keeps (k a)) -> keeps (bind m k).
Proof.
  intros Hm Hk w. unfold keeps_at, bind. destruct (Hm w) as [C1 S1].
  destruct (m w) as [[a| |] w1]; simpl in *; try (split; assumption).
  destruct (Hk a w1) as [C2 S2]. eapply keeps_at_trans; eassumption.
Qed.

Lemma keeps_notify i : keeps (notifyEffect i).
Proof.
  unfold notifyEffect. apply keeps_bind; [apply keeps_read|]. intro n.
  destruct (notify n); [apply keeps_emit|apply keeps_ret].
Qed.

Lemma keeps_uss i : keeps (updateSignalSources i).
Proof.
  intro w. unfold updateSignalSources. monad. unfold keeps_at. cbv beta.
  destruct (status_eqb (status (node_at w i)) DESTROYED); [split; reflexivity|].
  destruct (current_consumer w); [|split; reflexivity].
  destruct (current_untracking w) eqn:U; simpl; [split; reflexivity|].
  destruct (current_sources w); [destruct (negb _)|];
    split; try reflexivity; intro; discriminate.
Qed.

Ltac kstep :=
  match goal with
  | |- keeps (bind _ _) => apply keeps_bind; [|intro; cbv beta zeta]
  | |- keeps (ret _) => apply keeps_ret
  | |- keeps (throw _) => apply keeps_throw
  | |- keeps out_of_fuel => apply keeps_out_of_fuel
  | |- keeps (read _) => apply keeps_read
  | |- keeps get => apply keeps_get
  | |- keeps (modify (upd_node _ _)) => apply keeps_upd
  | |- keeps (modify (emit _)) => apply keeps_emit
  | |- keeps (notifyEffect _) => apply keeps_notify
  | |- keeps (updateSignalSources _) => apply keeps_uss
  | |- keeps (if ?b then _ else _) => destruct b
  | |- keeps (match ?x with _ => _ end) => destruct x
  | |- keeps (?F ?xs) =>
      is_var xs; match type of xs with list _ => idtac end;
      induction xs; cbv beta iota zeta
  | |- keeps _ => solve [ match goal with H : forall _, _ |- _ => apply H end ]
  end.

Ltac ktac := cbv beta zeta; repeat (first [assumption | kstep]).

Lemma keeps_mark fuel sig to force : keeps (markSignalConsumers fuel sig to force).
Proof.
  revert sig to. induction fuel as [|f IH]; intros sig to; [apply keeps_out_of_fuel|].
  cbn [markSignalConsumers]. ktac.
Qed.

Lemma keeps_remove fuel sig b : keeps (removeConsumer fuel sig b).
Proof.
  revert sig b. induction fuel as [|f IH]; intros sig b; [apply keeps_out_of_fuel|].
  cbn [removeConsumer]. ktac.
Qed.

Lemma keeps_state_set fuel i v : keeps (state_set fuel i v).
Proof.
  pose proof keeps_mark. unfold state_set. ktac.
Qed.

Lemma keeps_untrack_block {A B} (body : M A) (k : A -> M B) :
  keeps body -> (forall a, keeps (k a)) ->
  keeps (w <- get ;;
         let previous_untracking := w.(current_untracking) in
         modify (set_current_untracking true) ;;;
         r <- try_finally body (set_current_untracking previous_untracking) ;;
         k r).
Proof.
  intros Hb Hk w. unfold keeps_at. cbv [bind get modify try_finally].
  destruct (Hb (set_current_untracking true w)) as [C1 S1].
  destruct (body (set_current_untracking true w)) as [[a| |] w2]; simpl in C1, S1 |- *.
  - destruct (Hk a (set_current_untracking (current_untracking w) w2)) as [C2 S2].
    eapply keeps_at_trans; [| |exact C2|exact S2].
    + revert C1. unfold ctx. destruct w, w2; simpl. congruence.
    + intro U. simpl. rewrite S1 by reflexivity. reflexivity.
  - split; [revert C1; unfold ctx; destruct w, w2; simpl; congruence|].
    intro U. simpl. rewrite S1 by reflexivity. reflexivity.
  - split; [revert C1; unfold ctx; destruct w, w2; simpl; congruence|].
    intro U. simpl. rewrite S1 by reflexivity. reflexivity.
Qed.

Lemma keeps_effect_block {A} i (body : M A) :
  keeps body ->
  keeps (w <- get ;;
         let previous_effect := w.(current_effect) in
         modify (set_current_effect (Some i)) ;;;
         try_finally body (set_current_effect previous_effect)).
Proof.
  intros Hb w. unfold keeps_at. cbv [bind get modify try_finally].
  destruct (Hb (set_current_effect (Some i) w)) as [C1 S1].
  destruct (body (set_current_effect (Some i) w)) as [r w2]; simpl in C1, S1 |- *.
  split; [revert C1; unfold ctx; destruct w, w2; simpl; congruence|].
  intro U. simpl. apply S1. exact U.
Qed.

Lemma keeps_exec_block {A} i (body : node -> M A) :
  (forall n, keeps (body n)) ->
  keeps (w <- get ;;
         n <- read i ;;
         let previous_sources := w.(current_sources) in
         let previous_consumer := w.(current_consumer) in
         let previous_skip_consumer := w.(current_skip_consumer) in
         modify (set_current_sources None) ;;;
         modify (set_current_consumer (Some i)) ;;;
         modify (set_current_skip_consumer
                   (effect_is_null w && is_computed n && n.(unowned))) ;;;
         try_finally (body n)
           (fun w' => set_current_skip_consumer previous_skip_consumer
                        (set_current_consumer previous_consumer
                           (set_current_sources previous_sources w')))).
Proof.
  intros Hb w. unfold keeps_at. cbv [bind get read modify try_finally].
  match goal with |- context[body ?n ?w1] =>
    destruct (Hb n w1) as [C1 S1]; destruct (body n w1) as [r w2] end.
  simpl in C1, S1 |- *.
  split; [revert C1; unfold ctx; destruct w, w2; simpl; congruence|].
  intro U. reflexivity.
Qed.

Lemma engine_keeps fuel :
  (forall i, keeps (node_get fuel i)) /\ (forall i, keeps (computed_get fuel i)) /\
  (forall i, keeps (effect_get fuel i)) /\ (forall i, keeps (isSignalDirty fuel i)) /\
  (forall i b, keeps (updateComputedSignal fuel i b)) /\
  (forall i, keeps (updateEffectSignal fuel i)) /\
  (forall i, keeps (executeSignalCallback fuel i)) /\ (forall p, keeps (run_prog fuel p)).
Proof.
  pose proof keeps_remove as KR. pose proof keeps_mark as KM.
  pose proof keeps_state_set as KS.
  induction fuel as [|f IH].
  { repeat split; intros; apply keeps_out_of_fuel. }
  destruct IH as (H1 & H2 & H3 & H4 & H5 & H6 & H7 & H8).
  split; [intro i; cbn [node_get]; ktac|].
  split; [intro i; cbn [computed_get]; ktac|].
  split; [intro i; cbn [effect_get]; ktac|].
  split; [intro i; cbn [isSignalDirty]; ktac|].
  split; [intros i b; cbn [updateComputedSignal]; ktac|].
  split; [intro i; cbn [updateEffectSignal]; apply keeps_effect_block; ktac|].
  split; [intro i; cbn [executeSignalCallback]; apply keeps_exec_block; intro n; ktac|].
  intro p; cbn [run_prog]. destruct p; [ktac|ktac|ktac|ktac|].
  apply keeps_untrack_block; [apply H8|]. intro; apply H8.
Qed.
End LifecycleFacts.

Module ConsumerFacts.
Import Example ExampleFacts Lifecycle LifecycleFacts.

Lemma shrink_refl w : consumers_shrink w w.
Proof.
  split; [|repeat split]. intro j. split; [destruct (node_at w j); reflexivity|].
  split; auto.
Qed.

Lemma shrink_trans w1 w2 w3 :
  consumers_shrink w1 w2 -> consumers_shrink w2 w3 -> consumers_shrink w1 w3.
Proof.
  intros [N12 G12] [N23 G23]. split; [|repeat split; intuition congruence].
  intro j. destruct (N12 j) as (E12 & M12 & O12). destruct (N23 j) as (E23 & M23 & O23).
  split; [|split; auto].
  rewrite E23 at 1. rewrite E12 at 1. reflexivity.
Qed.

Lemma has_consumer_upd_other w x f j i :
  x <> j -> has_consumer (upd_node x f w) j i <-> has_consumer w j i.
Proof.
  intro D. unfold has_consumer. rewrite node_at_upd.
  destruct (Nat.eqb_spec x j); [contradiction|reflexivity].
Qed.

Lemma In_set_delete x y l : In y (set_delete x l) <-> In y l /\ x <> y.
Proof.
  unfold set_delete. rewrite filter_In. destruct (Nat.eqb_spec x y); simpl; intuition congruence.
Qed.

Lemma shrink_delete w x cs s :
  (node_at w x).(consumers) = Some cs ->
  consumers_shrink w (upd_node x (set_consumers (Some (set_delete s cs))) w) /\
  ~ has_consumer (upd_node x (set_consumers (Some (set_delete s cs))) w) x s.
Proof.
  intro Hc. split.
  - split; [|repeat split]. intro j. rewrite !node_at_upd.
    destruct (Nat.eqb_spec x j) as [<-|D].
    + split; [reflexivity|]. split; [|rewrite Hc; discriminate].
      intros y. unfold has_consumer. rewrite node_at_upd, Nat.eqb_refl, Hc. simpl.
      rewrite In_set_delete. tauto.
    + split; [destruct (node_at w j); reflexivity|]. split; [|auto].
      intros y. rewrite has_consumer_upd_other by exact D. auto.
  - unfold has_consumer. rewrite node_at_upd, Nat.eqb_refl. simpl.
    rewrite In_set_delete. tauto.
Qed.

Lemma shrink_no_consumer w w' x s :
  consumers_shrink w w' -> ~ has_consumer w x s -> ~ has_consumer w' x s.
Proof. intros [N _] H1 H2. destruct (N x) as (_ & M & _). auto. Qed.

Lemma no_consumer_none w x s :
  (node_at w x).(consumers) = None -> ~ has_consumer w x s.
Proof. unfold has_consumer. intros ->. auto. Qed.

Lemma remove_spec fuel s b w :
  consumers_shrink w (snd (removeConsumer fuel s b w)) /\
  (forall srcs, (node_at w s).(sources) = Some srcs ->
   fst (removeConsumer fuel s b w) = Ok tt ->
   forall x, In x srcs -> ~ has_consumer (snd (removeConsumer fuel s b w)) x s).
Proof.
  revert s b w. induction fuel as [|f IH]; intros s b w.
  { split; [apply shrink_refl| intros srcs0 ? E; discriminate E]. }
  cbn [removeConsumer]. monad. cbv beta zeta.
  destruct (sources (node_at w s)) as [srcs|] eqn:Hs.
  2: { split; [apply shrink_refl| intros srcs0 E; discriminate E]. }
  match goal with
  | |- ?A /\ (forall s0, Some srcs = Some s0 -> @?P s0) =>
    cut (A /\ P srcs);
      [intros [HA HP]; split; [exact HA | intros s1 E; injection E as E; subst s1; exact HP]|]
  end.
  cbv beta. clear Hs. revert w.
  induction srcs as [|x rest IHl]; intro w.
  { split; [apply shrink_refl| intros _ y []]. }
  cbv beta iota zeta.
  assert (Fin : forall w1 w2, consumers_shrink w w1 -> ~ has_consumer w1 x s ->
            consumers_shrink w1 w2 -> ~ has_consumer w2 x s ->
            forall (L : M unit),
            (consumers_shrink w2 (snd (L w2)) /\
             (fst (L w2) = Ok tt -> forall y, In y rest -> ~ has_consumer (snd (L w2)) y s)) ->
            consumers_shrink w (snd (L w2)) /\
            (fst (L w2) = Ok tt -> forall y, In y (x :: rest) -> ~ has_consumer (snd (L w2)) y s)).
  { intros w1 w2 S1 N1 S2 N2 L [S3 D3]. split; [eauto using shrink_trans|].
    intros Hok y [<-|Hy]; [|exact (D3 Hok y Hy)].
    eapply shrink_no_consumer; [exact S3|exact N2]. }
  assert (Stop : forall w1 w2 (o : outcome unit), consumers_shrink w w1 ->
            consumers_shrink w1 w2 -> o <> Ok tt ->
            consumers_shrink w w2 /\
            (o = Ok tt -> forall y, In y (x :: rest) -> ~ has_consumer w2 y s)).
  { intros w1 w2 o S1 S2 Ho. split; [eauto using shrink_trans|intro; contradiction]. }
  destruct (consumers (node_at w x)) as [cs|] eqn:Hc.
  - destruct (shrink_delete w x cs s Hc) as [S1 N1].
    set (w1 := upd_node x _ w) in *.
    destruct (_ && _ && _ && _).
    + destruct (IH x true w1) as [S2 _].
      destruct (removeConsumer f x true w1) as [[[]| |] w2]; simpl in S2 |- *.
      * apply (Fin w1 w2 S1 N1 S2 (shrink_no_consumer _ _ _ _ S2 N1)). apply IHl.
      * apply (Stop w1 w2 (Throw e)); [exact S1|exact S2|discriminate].
      * apply (Stop w1 w2 NoFuel); [exact S1|exact S2|discriminate].
    + apply (Fin w1 w1 S1 N1 (shrink_refl w1) N1). apply IHl.
  - pose proof (no_consumer_none w x s Hc) as N0.
    destruct (_ && _ && _ && _).
    + destruct (IH x true w) as [S2 _].
      destruct (removeConsumer f x true w) as [[[]| |] w2]; simpl in S2 |- *.
      * apply (Fin w w2 (shrink_refl w) N0 S2 (shrink_no_consumer _ _ _ _ S2 N0)). apply IHl.
      * apply (Stop w w2 (Throw e)); [apply shrink_refl|exact S2|discriminate].
      * apply (Stop w w2 NoFuel); [apply shrink_refl|exact S2|discriminate].
    + apply (Fin w w (shrink_refl w) N0 (shrink_refl w) N0). apply IHl.
Qed.
End ConsumerFacts.

Module CallbackFacts.
Import Example ExampleFacts Lifecycle LifecycleFacts ConsumerFacts.

Lemma keeps_run_prog f p : keeps (run_prog f p).
Proof. exact (proj2 (proj2 (proj2 (proj2 (proj2 (proj2 (proj2 (engine_keeps f))))))) p). Qed.

Lemma keeps_node_get f i : keeps (node_get f i).
Proof. exact (proj1 (engine_keeps f) i). Qed.

Lemma shrink_sources w w' j :
  consumers_shrink w w' -> (node_at w' j).(sources) = (node_at w j).(sources).
Proof. intros [N _]. destruct (N j) as [E _]. rewrite E. reflexivity. Qed.

Lemma node_at_ctx_sets w j sk c s :
  node_at (set_current_skip_consumer sk (set_current_consumer c (set_current_sources s w))) j
  = node_at w j.
Proof. reflexivity. Qed.

Lemma In_set_add x y l : In y (set_add x l) <-> In y l \/ y = x.
Proof.
  unfold set_add, set_has. destruct (existsb (Nat.eqb x) l) eqn:E.
  - apply existsb_exists in E. destruct E as [z [Hz Ez]]. apply Nat.eqb_eq in Ez. subst z.
    intuition congruence.
  - rewrite in_app_iff. simpl. intuition.
Qed.

Lemma add_spec i cur w :
  fst (add_consumers i cur w) = Ok tt /\
  (forall s, In s cur -> has_consumer (snd (add_consumers i cur w)) s i) /\
  (forall j, (node_at (snd (add_consumers i cur w)) j).(sources) = (node_at w j).(sources)) /\
  (forall j x, has_consumer w j x -> has_consumer (snd (add_consumers i cur w)) j x).
Proof.
  revert w. induction cur as [|s rest IH]; intro w.
  { split; [reflexivity|]. split; [intros s []|]. split; auto. }
  cbn [add_consumers]. monad. cbv beta.
  set (c1 := match consumers (node_at w s) with
             | Some cs => Some (set_add i cs) | None => Some [i] end).
  set (w1 := upd_node s (set_consumers c1) w).
  assert (G : forall x, has_consumer w s x -> has_consumer w1 s x).
  { intros x. unfold has_consumer, w1, c1. rewrite node_at_upd, Nat.eqb_refl. simpl.
    destruct (consumers (node_at w s)); [rewrite In_set_add; auto|tauto]. }
  assert (G1 : has_consumer w1 s i).
  { unfold has_consumer, w1, c1. rewrite node_at_upd, Nat.eqb_refl. simpl.
    destruct (consumers (node_at w s)); [rewrite In_set_add|]; simpl; auto. }
  destruct (IH w1) as (O & A & Sr & P).
  split; [exact O|]. split; [|split].
  - intros s' [<-|Hs]; [apply P; exact G1|apply A; exact Hs].
  - intro j. rewrite Sr. unfold w1. rewrite node_at_upd. destruct (Nat.eqb s j); reflexivity.
  - intros j x H. apply P. destruct (Nat.eqb_spec s j) as [<-|D]; [apply G; exact H|].
    unfold has_consumer, w1. rewrite node_at_upd. destruct (Nat.eqb_spec s j); [contradiction|].
    exact H.
Qed.

Ltac open_exec i E :=
  cbn [executeSignalCallback] in E; fold (add_consumers i) in E;
  cbv [bind get read modify try_finally ret] in E; cbv beta zeta in E.

Lemma untracked_sources f i w v w' :
  current_untracking w = true ->
  executeSignalCallback f i w = (Ok v, w') ->
  sources (node_at w' i) = None \/ sources (node_at w' i) = Some [].
Proof.
  intros U E. destruct f as [|f]; [discriminate|]. open_exec i E.
  match type of E with context[run_prog f ?cb ?w0] =>
    destruct (keeps_run_prog f cb w0) as [_ S]; destruct (run_prog f cb w0) as [[a| |] w1]
  end; [|discriminate E|discriminate E].
  simpl in S. rewrite (S U) in E.
  destruct (sources (node_at w1 i)) eqn:Si.
  - destruct (remove_spec f i false w1) as [Sh _].
    destruct (removeConsumer f i false w1) as [[[]| |] w2]; [|discriminate E|discriminate E].
    injection E as <- <-. right. rewrite node_at_ctx_sets, node_at_upd, Nat.eqb_refl.
    reflexivity.
  - injection E as <- <-. left. rewrite node_at_ctx_sets. exact Si.
Qed.

Lemma callback_mirror f i w v w' :
  (effect_is_null w && is_computed (node_at w i) && unowned (node_at w i)) = false ->
  executeSignalCallback f i w = (Ok v, w') ->
  forall l, sources (node_at w' i) = Some l -> forall s, In s l -> has_consumer w' s i.
Proof.
  intros Sk E. destruct f as [|f]; [discriminate|]. open_exec i E. rewrite Sk in E.
  match type of E with context[run_prog f ?cb ?w0] =>
    destruct (keeps_run_prog f cb w0) as [C _]; destruct (run_prog f cb w0) as [[a| |] w1]
  end; [|discriminate E|discriminate E].
  assert (Sk1 : current_skip_consumer w1 = false).
  { revert C. unfold ctx. simpl. intro C. injection C as _ _ _ ->. reflexivity. }
  destruct (current_sources w1) as [cur|].
  - destruct (removeConsumer f i false w1) as [[[]| |] w2]; [|discriminate E|discriminate E].
    rewrite Sk1 in E. simpl in E.
    destruct (add_spec i cur (upd_node i (set_sources (Some cur)) w2)) as (O & A & Sr & _).
    destruct (add_consumers i cur (upd_node i (set_sources (Some cur)) w2)) as [o w4].
    simpl in O. subst o. injection E as <- <-.
    intros l. rewrite node_at_ctx_sets, Sr, node_at_upd, Nat.eqb_refl. simpl.
    intros El; injection El as <-. intros s Hs. apply A in Hs. exact Hs.
  - destruct (sources (node_at w1 i)) eqn:Si.
    + destruct (remove_spec f i false w1) as [Sh _].
      destruct (removeConsumer f i false w1) as [[[]| |] w2]; [|discriminate E|discriminate E].
      injection E as <- <-. rewrite node_at_ctx_sets, node_at_upd, Nat.eqb_refl.
      simpl. intros l0 El. injection El as <-. intros s [].
    + injection E as <- <-. rewrite node_at_ctx_sets, Si. discriminate.
Qed.

Lemma untrack_keeps fuel body w :
  ctx (snd (untrack fuel body w)) = ctx w /\
  current_sources (snd (untrack fuel body w)) = current_sources w.
Proof.
  unfold untrack. cbv [bind get modify try_finally].
  destruct (keeps_run_prog fuel body (set_current_untracking true w)) as [C S].
  destruct (run_prog fuel body (set_current_untracking true w)) as [o w2]. simpl in C, S |- *.
  split; [revert C; unfold ctx; destruct w, w2; simpl; congruence|].
  apply S. reflexivity.
Qed.

Lemma clean_effect_get f e w :
  consumer_is_computed w = false -> (node_at w e).(status) = CLEAN ->
  effect_get (S (S f)) e w = (Ok (node_at w e).(value), w).
Proof.
  intros C Hs. cbn [effect_get isSignalDirty]. monad. rewrite C, Hs. cbv beta iota delta [status_eqb]. rewrite Hs. reflexivity.
Qed.
End CallbackFacts.

Module DisposeFacts.
Import Example ExampleFacts Lifecycle LifecycleFacts ConsumerFacts CallbackFacts.

Lemma has_consumer_upd_same w i f j x :
  (forall n, (f n).(consumers) = n.(consumers)) ->
  has_consumer (upd_node i f w) j x <-> has_consumer w j x.
Proof.
  intro Hf. unfold has_consumer. rewrite node_at_upd.
  destruct (Nat.eqb i j); [rewrite Hf|]; reflexivity.
Qed.

(** The nodes and globals of [dispose]'s result, whatever its outcome. *)
Lemma dispose_frame fuel e w :
  (node_at (snd (dispose fuel e w)) e).(status) = DESTROYED /\
  (forall j, (node_at (snd (dispose fuel e w)) j).(kind) = (node_at w j).(kind)) /\
  current_consumer (snd (dispose fuel e w)) = current_consumer w /\
  current_effect (snd (dispose fuel e w)) = current_effect w.
Proof.
  unfold dispose, destroySignal. monad. cbv beta.
  set (w4 := upd_node e (set_consumers None) (upd_node e (set_equals Object_is)
               (upd_node e (set_value VUninit) (upd_node e (set_status DESTROYED) w)))).
  assert (F4 : (node_at w4 e).(status) = DESTROYED /\
               (forall j, (node_at w4 j).(kind) = (node_at w j).(kind)) /\
               current_consumer w4 = current_consumer w /\
               current_effect w4 = current_effect w).
  { unfold w4. rewrite !node_at_upd, Nat.eqb_refl. split; [reflexivity|].
    split; [|split; reflexivity]. intro j. rewrite !node_at_upd.
    destruct (Nat.eqb e j); reflexivity. }
  assert (R : forall w5, consumers_shrink w4 w5 ->
            (node_at w5 e).(status) = DESTROYED /\
            (forall j, (node_at w5 j).(kind) = (node_at w j).(kind)) /\
            current_consumer w5 = current_consumer w /\
            current_effect w5 = current_effect w).
  { intros w5 [N G]. destruct F4 as (A & B & C & D).
    split; [|split; [|split]].
    - destruct (N e) as [E _]. rewrite E. exact A.
    - intro j. destruct (N j) as [E _]. rewrite E. apply B.
    - destruct G as (G1 & _). congruence.
    - destruct G as (_ & G2 & _). congruence. }
  destruct (kind (node_at w e)).
  - apply R. apply shrink_refl.
  - destruct (remove_spec fuel e true w4) as [Sh _].
    destruct (removeConsumer fuel e true w4) as [[[]| |] w5]; cbn [fst snd] in Sh |- *;
      destruct (R w5 Sh) as (A & B & C & D); [|repeat split; assumption..].
    rewrite node_at_upd, Nat.eqb_refl. split; [exact A|]. split; [|split; assumption].
    intro j. rewrite node_at_upd. destruct (Nat.eqb e j); apply B.
  - destruct (remove_spec fuel e true w4) as [Sh _].
    destruct (removeConsumer fuel e true w4) as [[[]| |] w5]; cbn [fst snd] in Sh |- *;
      destruct (R w5 Sh) as (A & B & C & D); [|repeat split; assumption..].
    rewrite !node_at_upd, Nat.eqb_refl. split; [exact A|]. split; [|split; assumption].
    intro j. rewrite !node_at_upd. destruct (Nat.eqb e j); apply B.
Qed.

Lemma dispose_effect_spec fuel e w srcs :
  (node_at w e).(kind) = KEffect ->
  (node_at w e).(sources) = Some srcs ->
  fst (dispose fuel e w) = Ok tt ->
  (node_at (snd (dispose fuel e w)) e).(status) = DESTROYED /\
  (node_at (snd (dispose fuel e w)) e).(value) = VUninit /\
  (node_at (snd (dispose fuel e w)) e).(consumers) = None /\
  (node_at (snd (dispose fuel e w)) e).(sources) = None /\
  (node_at (snd (dispose fuel e w)) e).(notify) = false /\
  (forall x, In x srcs -> ~ has_consumer (snd (dispose fuel e w)) x e) /\
  (forall j x, has_consumer (snd (dispose fuel e w)) j x -> has_consumer w j x).
Proof.
  intros Hk Hs Hok. unfold dispose, destroySignal in *. monad. cbv beta in *.
  rewrite Hk in *.
  set (w4 := upd_node e (set_consumers None) (upd_node e (set_equals Object_is)
               (upd_node e (set_value VUninit) (upd_node e (set_status DESTROYED) w)))) in *.
  assert (S4 : (node_at w4 e).(sources) = Some srcs).
  { unfold w4. rewrite !node_at_upd, Nat.eqb_refl. exact Hs. }
  assert (H4 : forall j x, has_consumer w4 j x -> has_consumer w j x).
  { intros j x. unfold has_consumer, w4. rewrite !node_at_upd.
    destruct (Nat.eqb_spec e j) as [<-|_]; simpl; [tauto|auto]. }
  destruct (remove_spec fuel e true w4) as [Sh D].
  specialize (D srcs S4).
  destruct (removeConsumer fuel e true w4) as [[[]| |] w5]; cbn [fst snd] in Sh, D, Hok |- *;
    [|discriminate Hok|discriminate Hok].
  specialize (D eq_refl).
  destruct Sh as [N _]. destruct (N e) as (Ee & _ & Ne).
  assert (Ce : (node_at w4 e).(consumers) = None).
  { unfold w4. rewrite node_at_upd, Nat.eqb_refl. reflexivity. }
  rewrite !node_at_upd, !Nat.eqb_refl. cbn [set_notify set_sources kind consumers equals status value callback sources unowned notify].
  rewrite Ee. unfold w4. rewrite !node_at_upd, !Nat.eqb_refl. simpl.
  split; [reflexivity|]. split; [reflexivity|]. split; [exact (Ne Ce)|].
  split; [reflexivity|]. split; [reflexivity|]. split.
  - intros x Hx. rewrite !has_consumer_upd_same by reflexivity. apply D. exact Hx.
  - intros j x. rewrite !has_consumer_upd_same by reflexivity. intro Hc.
    apply H4. destruct (N j) as (_ & M & _). apply M. exact Hc.
Qed.
End DisposeFacts.

Module LifecycleTheorems.
Import Example Scenarios Recompute ExampleFacts Lifecycle
  LifecycleScenarios LifecycleFacts ConsumerFacts CallbackFacts DisposeFacts.

(** Every [get()] (of a State, Computed or Effect) and every [State.set()]
    leaves [current_consumer], [current_effect], [current_untracking] and
    [current_skip_consumer] as it found them, also when it throws: the
    [finally] blocks of [executeSignalCallback], [updateEffectSignal] and
    [untrack] restore what they change. *)
Theorem operations_restore_context fuel i v w :
  ctx (snd (node_get fuel i w)) = ctx w /\
  ctx (snd (state_set fuel i v w)) = ctx w.
Proof. split; [apply keeps_node_get|apply keeps_state_set]. Qed.

(** [untrack(fn)] restores the module-level context whatever [fn] does,
    and records no dependency of the enclosing consumer: [current_sources]
    is the same after the call as before it. *)
Theorem untrack_isolates_dependencies fuel body w :
  ctx (snd (untrack fuel body w)) = ctx w /\
  current_sources (snd (untrack fuel body w)) = current_sources w.
Proof. apply untrack_keeps. Qed.

(** A callback run by [executeSignalCallback] while [current_untracking]
    is set records no source: when it returns normally, the signal's
    [sources] are [null] or empty. *)
Theorem untracked_callback_records_no_sources f i w v :
  current_untracking w = true ->
  fst (executeSignalCallback f i w) = Ok v ->
  (node_at (snd (executeSignalCallback f i w)) i).(sources) = None \/
  (node_at (snd (executeSignalCallback f i w)) i).(sources) = Some [].
Proof.
  intros U E. apply (untracked_sources f i w v _ U).
  rewrite <- E. apply surjective_pairing.
Qed.

Lemma untracked_callback_records_no_sources_witness :
  current_untracking w_untracked = true /\
  fst (executeSignalCallback 10 1 w_untracked) = Ok (VNum (Fin 1)) /\
  ((node_at (snd (executeSignalCallback 10 1 w_untracked)) 1).(sources) = None \/
   (node_at (snd (executeSignalCallback 10 1 w_untracked)) 1).(sources) = Some []).
Proof.
  assert (U : current_untracking w_untracked = true) by reflexivity.
  assert (E : fst (executeSignalCallback 10 1 w_untracked) = Ok (VNum (Fin 1)))
    by (vm_compute; reflexivity).
  split; [exact U|]. split; [exact E|].
  exact (untracked_callback_records_no_sources 10 1 w_untracked (VNum (Fin 1)) U E).
Defined.

(** When [executeSignalCallback] does not skip consumers and the callback
    returns normally, every source recorded in the signal's new [sources]
    lists the signal among its [consumers]. *)
Theorem callback_sources_mirrored f i w v :
  (effect_is_null w && is_computed (node_at w i) && unowned (node_at w i)) = false ->
  fst (executeSignalCallback f i w) = Ok v ->
  forall l, (node_at (snd (executeSignalCallback f i w)) i).(sources) = Some l ->
  forall s, In s l -> has_consumer (snd (executeSignalCallback f i w)) s i.
Proof.
  intros Sk E. apply (callback_mirror f i w v _ Sk).
  rewrite <- E. apply surjective_pairing.
Qed.

Lemma callback_sources_mirrored_witness :
  fst (executeSignalCallback 10 1 w_effect) = Ok (VNum (Fin 1)) /\
  (node_at (snd (executeSignalCallback 10 1 w_effect)) 1).(sources) = Some [0] /\
  has_consumer (snd (executeSignalCallback 10 1 w_effect)) 0 1.
Proof.
  assert (E : fst (executeSignalCallback 10 1 w_effect) = Ok (VNum (Fin 1)))
    by (vm_compute; reflexivity).
  assert (Sr : (node_at (snd (executeSignalCallback 10 1 w_effect)) 1).(sources) = Some [0])
    by (vm_compute; reflexivity).
  split; [exact E|]. split; [exact Sr|].
  exact (callback_sources_mirrored 10 1 w_effect (VNum (Fin 1)) eq_refl E [0] Sr 0
           (or_introl eq_refl)).
Defined.

(** [removeConsumer(signal, b)], when it completes, only removes consumer
    edges (no node gains a consumer, a [null] consumer set stays [null],
    other fields are untouched) and leaves [signal] out of the consumers of
    each of its sources. *)
Theorem removeConsumer_detaches fuel s b w srcs :
  (node_at w s).(sources) = Some srcs ->
  fst (removeConsumer fuel s b w) = Ok tt ->
  consumers_shrink w (snd (removeConsumer fuel s b w)) /\
  forall x, In x srcs -> ~ has_consumer (snd (removeConsumer fuel s b w)) x s.
Proof.
  intros Hs Hok. destruct (remove_spec fuel s b w) as [Sh D].
  split; [exact Sh|exact (D srcs Hs Hok)].
Qed.

Lemma removeConsumer_detaches_witness :
  (node_at w_diamond_watched 4).(sources) = Some [3] /\
  fst (removeConsumer 10 4 false w_diamond_watched) = Ok tt /\
  ~ has_consumer (snd (removeConsumer 10 4 false w_diamond_watched)) 3 4.
Proof.
  assert (Hs : (node_at w_diamond_watched 4).(sources) = Some [3]) by (vm_compute; reflexivity).
  assert (Hok : fst (removeConsumer 10 4 false w_diamond_watched) = Ok tt)
    by (vm_compute; reflexivity).
  split; [exact Hs|]. split; [exact Hok|].
  exact (proj2 (removeConsumer_detaches 10 4 false w_diamond_watched [3] Hs Hok) 3
           (or_introl eq_refl)).
Defined.

(** [Effect.dispose()] destroys the effect: its status is [DESTROYED], its
    value uninitialised, its consumers, sources and notify [null]; none of
    its former sources lists it as a consumer, and no consumer edge is
    created anywhere. *)
Theorem dispose_detaches_effect fuel e w srcs :
  (node_at w e).(kind) = KEffect ->
  (node_at w e).(sources) = Some srcs ->
  fst (dispose fuel e w) = Ok tt ->
  (node_at (snd (dispose fuel e w)) e).(status) = DESTROYED /\
  (node_at (snd (dispose fuel e w)) e).(value) = VUninit /\
  (node_at (snd (dispose fuel e w)) e).(consumers) = None /\
  (node_at (snd (dispose fuel e w)) e).(sources) = None /\
  (node_at (snd (dispose fuel e w)) e).(notify) = false /\
  (forall x, In x srcs -> ~ has_consumer (snd (dispose fuel e w)) x e) /\
  (forall j x, has_consumer (snd (dispose fuel e w)) j x -> has_consumer w j x).
Proof. apply dispose_effect_spec. Qed.

Lemma dispose_detaches_effect_witness :
  (node_at w_diamond_watched 4).(kind) = KEffect /\
  (node_at w_diamond_watched 4).(sources) = Some [3] /\
  fst (dispose 10 4 w_diamond_watched) = Ok tt /\
  ~ has_consumer (snd (dispose 10 4 w_diamond_watched)) 3 4.
Proof.
  assert (Hk : (node_at w_diamond_watched 4).(kind) = KEffect) by (vm_compute; reflexivity).
  assert (Hs : (node_at w_diamond_watched 4).(sources) = Some [3]) by (vm_compute; reflexivity).
  assert (Hok : fst (dispose 10 4 w_diamond_watched) = Ok tt) by (vm_compute; reflexivity).
  split; [exact Hk|]. split; [exact Hs|]. split; [exact Hok|].
  exact (proj1 (proj2 (proj2 (proj2 (proj2 (proj2
           (dispose_detaches_effect 10 4 w_diamond_watched [3] Hk Hs Hok)))))) 3
           (or_introl eq_refl)).
Defined.

(** After [dispose()], [get()] on the effect, outside a computed, throws
    "Cannot call get() on effect signals that have already been disposed."
    and changes nothing. *)
Theorem get_after_dispose_throws fuel g e w :
  consumer_is_computed w = false ->
  effect_get (S g) e (snd (dispose fuel e w)) =
    (Throw err_effect_disposed, snd (dispose fuel e w)).
Proof.
  intros C. destruct (dispose_frame fuel e w) as (Hs & Hk & Hc & _).
  set (w' := snd (dispose fuel e w)) in *.
  assert (C' : consumer_is_computed w' = false).
  { unfold consumer_is_computed in *. rewrite Hc.
    destruct (current_consumer w) as [c|]; [rewrite Hk; exact C|reflexivity]. }
  cbn [effect_get]. monad. rewrite C'. cbv beta iota. rewrite Hs. reflexivity.
Qed.

Lemma get_after_dispose_throws_witness :
  consumer_is_computed w_diamond_watched = false /\
  fst (effect_get 10 4 (snd (dispose 10 4 w_diamond_watched))) = Throw err_effect_disposed.
Proof.
  assert (C : consumer_is_computed w_diamond_watched = false) by (vm_compute; reflexivity).
  split; [exact C|].
  rewrite (get_after_dispose_throws 10 9 4 w_diamond_watched C). reflexivity.
Defined.

(** [get()] on a clean effect, outside a computed, returns its cached
    value without running its callback and without changing anything. *)
Theorem clean_effect_get_cached f e w :
  consumer_is_computed w = false -> (node_at w e).(status) = CLEAN ->
  effect_get (S (S f)) e w = (Ok (node_at w e).(value), w).
Proof. apply clean_effect_get. Qed.

Lemma clean_effect_get_cached_witness :
  consumer_is_computed w_diamond_watched = false /\
  (node_at w_diamond_watched 4).(status) = CLEAN /\
  fst (effect_get 10 4 w_diamond_watched) = Ok (node_at w_diamond_watched 4).(value).
Proof.
  assert (C : consumer_is_computed w_diamond_watched = false) by (vm_compute; reflexivity).
  assert (Hs : (node_at w_diamond_watched 4).(status) = CLEAN) by (vm_compute; reflexivity).
  split; [exact C|]. split; [exact Hs|].
  rewrite (clean_effect_get_cached 8 4 w_diamond_watched C Hs). reflexivity.
Defined.

Lemma state_get_eq f s w :
  (node_at w s).(kind) = KState ->
  node_get (S f) s w = (Ok (node_at w s).(value), snd (updateSignalSources s w)).
Proof.
  intros Hk. cbn [node_get]. monad. rewrite Hk.
  destruct (uss_ok s w) as [srcs E]. cbv beta. rewrite E. reflexivity.
Qed.

Lemma set_has_app_last s l : set_has s (l ++ [s]) = true.
Proof.
  unfold set_has. rewrite existsb_app. simpl. rewrite Nat.eqb_refl, orb_true_r. reflexivity.
Qed.

Lemma uss_twice s w :
  updateSignalSources s (snd (updateSignalSources s w)) = (Ok tt, snd (updateSignalSources s w)).
Proof.
  destruct w as [nd cc ce cs cu csk tr]. unfold updateSignalSources. step.
  destruct (nd s) as [k cs0 eq st v cb src un nt] eqn:Hn. step.
  repeat (rewrite ?Hn; step; match goal with
          | |- context[match ?x with _ => _ end] => is_var x; destruct x; step
          | |- context[if set_has ?a ?b then _ else _] =>
              is_var b; let H := fresh in destruct (set_has a b) eqn:H; step; try rewrite H
          end); try reflexivity.
  all: rewrite ?Hn; step; try reflexivity.
  all: rewrite ?set_has_app_last; try reflexivity.
  all: unfold set_has; simpl; rewrite ?Nat.eqb_refl; reflexivity.
Qed.

(** [State.get()] returns the state's value; reading the same state again
    right away returns the same value and changes nothing: the first read
    has already recorded the state in [current_sources] if it records it. *)
Theorem state_read_idempotent f s w :
  (node_at w s).(kind) = KState ->
  fst (node_get (S f) s w) = Ok (node_at w s).(value) /\
  node_get (S f) s (snd (node_get (S f) s w)) =
    (Ok (node_at w s).(value), snd (node_get (S f) s w)).
Proof.
  intros Hk. rewrite (state_get_eq f s w Hk). split; [reflexivity|]. cbn [fst snd].
  destruct (uss_ok s w) as [srcs E].
  assert (Hk' : (node_at (snd (updateSignalSources s w)) s).(kind) = KState)
    by (rewrite E; exact Hk).
  rewrite (state_get_eq f s _ Hk'), uss_twice. rewrite E. reflexivity.
Qed.

Lemma state_read_idempotent_witness :
  (node_at w_effect 0).(kind) = KState /\
  fst (node_get 10 0 (set_current_consumer (Some 1) w_effect)) = Ok (VNum (Fin 1)).
Proof.
  assert (Hk : (node_at (set_current_consumer (Some 1) w_effect) 0).(kind) = KState)
    by reflexivity.
  split; [exact Hk|].
  exact (proj1 (state_read_idempotent 9 0 (set_current_consumer (Some 1) w_effect) Hk)).
Defined.


End LifecycleTheorems.

Module PolyfillExtraFacts.
Import Polyfill PolyfillScenarios PolyfillIntrospect.

Lemma js_get_nth {A} (l : list (option A)) i :
  js_get l (Z.of_nat i) = match nth_error l i with Some o => o | None => None end.
Proof.
  unfold js_get. replace (Z.of_nat i <? 0)%Z with false by (symmetry; apply Z.ltb_ge; lia).
  rewrite Nat2Z.id. reflexivity.
Qed.

(** [hasSinks] and [hasSources] return whether [introspectSinks] and
    [introspectSources] would return a non-empty array, and throw exactly
    when those throw. *)
Theorem has_matches_introspect s pw :
  hasSinks s pw = option_map (fun l => 0 <? List.length l) (introspectSinks s pw) /\
  hasSources s pw = option_map (fun l => 0 <? List.length l) (introspectSources s pw).
Proof.
  unfold hasSinks, hasSources, introspectSinks, introspectSources.
  split; destruct (_ && _); reflexivity.
Qed.

(** [Watcher.unwatch(...signals)] with signals none of which the watcher
    watches (every slot of its [producerNode] holding some other node)
    changes nothing. *)
Theorem unwatch_unwatched_noop fuel this signals pw :
  (pw.(rnodes) this).(wrapper_kind) = WWatcher ->
  forallb (fun s => is_signal (pw.(rnodes) s)) signals = true ->
  (forall o, In o (pw.(rnodes) this).(producerNode) ->
     exists p, o = Some p /\ ~ In p signals) ->
  unwatch fuel this signals pw = Some pw.
Proof.
  intros Hw Hs Hp. unfold unwatch. rewrite Hw, Hs. cbv beta iota delta [negb wkind_eqb].
  set (l := producerNode (rnodes pw this)) in *.
  assert (Hf : forall xs, (forall i, In i xs -> i < List.length l) ->
    fold_left
      (fun (acc : option (pworld * list nat)) (i : nat) =>
         let* acc := acc in
         let (pw', indicesToShift) := acc in
         let node := pw'.(rnodes) this in
         let* p := js_get node.(producerNode) (Z.of_nat i) in
         if existsb (Nat.eqb p) signals then
           let* k := js_get node.(producerIndexOfThis) (Z.of_nat i) in
           let* pw'' := producerRemoveLiveConsumerAtIndex fuel p k pw' in
           Some (pw'', indicesToShift ++ [i])
         else Some (pw', indicesToShift))
      xs (Some (pw, [])) = Some (pw, [])).
  { induction xs as [|i xs IH]; intros B; [reflexivity|].
    cbn [fold_left]. cbv beta.
    assert (Hi : i < List.length l) by (apply B; left; reflexivity).
    destruct (nth_error l i) as [o|] eqn:Eo;
      [|apply nth_error_None in Eo; lia].
    destruct (Hp o (nth_error_In _ _ Eo)) as [p [-> Np]].
    cbv beta iota zeta delta [obind]. fold l. rewrite js_get_nth, Eo. cbv iota beta.
    replace (existsb (Nat.eqb p) signals) with false.
    - apply IH. intros j J. apply B. right. exact J.
    - symmetry. apply Bool.not_true_iff_false. intro E.
      apply existsb_exists in E. destruct E as [x [X Ex]].
      apply Nat.eqb_eq in Ex. subst x. exact (Np X). }
  rewrite Hf; [reflexivity|]. intros i I. apply in_seq in I. lia.
Qed.

Lemma unwatch_unwatched_noop_witness :
  unwatch 10 2 [3] pw_watch2 = Some pw_watch2.
Proof.
  apply unwatch_unwatched_noop.
  - reflexivity.
  - reflexivity.
  - intros o O. simpl in O. destruct O as [<-|[<-|[]]];
      eexists; (split; [reflexivity|]); simpl; lia.
Defined.

End PolyfillExtraFacts.
